(** * NYC ride-hail analytics chatbot: the presentation layer and the
      generation pipeline it consumes

    Shallow embedding of the TypeScript sources
    - [ChartRenderer.tsx]   (series pivot, ordering, chart kind dispatch),
    - [MessageList.tsx]     (which chart output of a message is displayed),
    - [ChatInterface.tsx]   (submit handler, preview fetch),
    - [DataPreview.tsx]     (stand-alone preview component),
    - [DataTable.tsx]       (CSV export),
    - [types.ts]            (the response payload),
    followed by the properties the specification states about them.

    Modelling conventions.
    - A JavaScript object used as a dictionary is an insertion-ordered
      association list of its own properties; [Object.keys] and
      [Object.values] enumerate array-index keys first, in ascending order,
      then the remaining keys in insertion order.  The table that
      [ChartRenderer] fills row by row is read and written through
      [Object.prototype], as the code reads and writes it: a key that names
      a member of the prototype finds that member, and an assignment under
      [__proto__] goes to the accessor.  Result rows are read by their own
      properties.
    - Cell values are the JSON scalars.  The numeric type, its printing
      ([Number::toString]) and the numeric reading of a string
      ([StringToNumber]) are an interface, [JSNumber]; nothing below depends
      on how a particular engine implements them. *)

From Stdlib Require Import String Ascii List Bool Arith NArith ZArith Lia.
From Stdlib Require Import Permutation Sorted DecimalString.
From stdpp Require gmap strings.
Import ListNotations.
Local Open Scope string_scope.
Local Open Scope list_scope.

(* ================================================================== *)
(** * Part I: definitions                                              *)
(* ================================================================== *)

(** ** JavaScript numbers, as far as the sources use them *)

Class JSNumber : Type := {
  num : Type;
  num_zero : num;
  num_one : num;
(** [num_leb a b] is the test [a - b <= 0] of a sort comparator *)
  num_leb : num -> num -> bool;
  num_leb_total : forall a b, num_leb a b = true \/ num_leb b a = true;
  num_leb_trans : forall a b c,
      num_leb a b = true -> num_leb b c = true -> num_leb a c = true;
(** [String(n)] for a number [n] *)
  num_to_string : num -> string;
(** [Number(s)] for a string [s]; [None] is NaN *)
  string_to_num : string -> option num
}.

(** ** Strings *)

Module Str.

Fixpoint contains_char (c : ascii) (s : string) : bool :=
  match s with
  | EmptyString => false
  | String d s' => if Ascii.eqb c d then true else contains_char c s'
  end.

(** [xs.join(sep)] *)
Fixpoint join (sep : string) (xs : list string) : string :=
  match xs with
  | [] => ""
  | [x] => x
  | x :: rest => x ++ sep ++ join sep rest
  end.

Definition is_empty (s : string) : bool :=
  match s with EmptyString => true | _ => false end.

Definition comma : ascii := ","%char.
Definition dquote : ascii := Ascii.ascii_of_nat 34.
Definition newline : ascii := Ascii.ascii_of_nat 10.
Definition carriage_return : ascii := Ascii.ascii_of_nat 13.

(** [s.replace] with the global double-quote pattern: every double quote
    is written twice *)
Fixpoint double_quotes (s : string) : string :=
  match s with
  | EmptyString => EmptyString
  | String c s' =>
      if Ascii.eqb c dquote
      then String dquote (String dquote (double_quotes s'))
      else String c (double_quotes s')
  end.

End Str.

(** ** Values and objects *)

Section Values.

Context {JSN : JSNumber}.

(** A cell of a result row: what JSON can carry, plus [undefined] for a
    property that is not there. *)
Inductive value : Type :=
  | VUndefined
  | VNull
  | VBool (b : bool)
  | VNum (n : num)
  | VStr (s : string).

(** [String(v)] *)
Definition ToString (v : value) : string :=
  match v with
  | VUndefined => "undefined"
  | VNull => "null"
  | VBool true => "true"
  | VBool false => "false"
  | VNum n => num_to_string n
  | VStr s => s
  end.

(** [Number(v)]; [None] is NaN *)
Definition ToNumber (v : value) : option num :=
  match v with
  | VUndefined => None
  | VNull => Some num_zero
  | VBool true => Some num_one
  | VBool false => Some num_zero
  | VNum n => Some n
  | VStr s => string_to_num s
  end.

(** [Number(v) || 0]: NaN and zero are falsy, so both give zero. *)
Definition number_or_zero (v : value) : num :=
  match ToNumber v with
  | Some n => n
  | None => num_zero
  end.

(** [v === null || v === undefined] *)
Definition is_nullish (v : value) : bool :=
  match v with
  | VUndefined | VNull => true
  | _ => false
  end.

End Values.

(** An object, by its own properties in insertion order. *)
Definition jsobject (A : Type) : Type := list (string * A).

Module Obj.

Section Ops.
Context {A : Type}.

(** own property lookup *)
Fixpoint get (o : jsobject A) (k : string) : option A :=
  match o with
  | [] => None
  | (k', v) :: o' => if String.eqb k k' then Some v else get o' k
  end.

(** [o[k] = v]: an existing property keeps its place, a new one goes
    last. *)
Fixpoint set (o : jsobject A) (k : string) (v : A) : jsobject A :=
  match o with
  | [] => [(k, v)]
  | (k', v') :: o' =>
      if String.eqb k k' then (k', v) :: o' else (k', v') :: set o' k v
  end.

Definition has (o : jsobject A) (k : string) : bool :=
  match get o k with Some _ => true | None => false end.

(** the same object with every property value changed by [f] *)
Definition map_values {B : Type} (f : A -> B) (o : jsobject A) : jsobject B :=
  map (fun kv => (fst kv, f (snd kv))) o.

End Ops.

(** *** Names found on [Object.prototype]

    An object written as a literal inherits the members of
    [Object.prototype]: eleven functions and the accessor [__proto__]. *)

Definition prototype_members : list string :=
  [ "constructor"; "__defineGetter__"; "__defineSetter__"; "hasOwnProperty";
    "__lookupGetter__"; "__lookupSetter__"; "isPrototypeOf";
    "propertyIsEnumerable"; "toString"; "valueOf"; "__proto__";
    "toLocaleString" ].

Definition inherited (k : string) : bool :=
  existsb (String.eqb k) prototype_members.

(** What [o[k]] finds on an object that inherits from [Object.prototype]:
    a property of its own, else a member of the prototype, else nothing
    ([undefined]). *)
Inductive found (A : Type) : Type :=
  | Own (a : A)
  | Member
  | Missing.

Arguments Own {A} a.
Arguments Member {A}.
Arguments Missing {A}.

Definition lookup {A : Type} (o : jsobject A) (k : string) : found A :=
  match get o k with
  | Some a => Own a
  | None => if inherited k then Member else Missing
  end.

(** *** Enumeration order of own properties *)

Definition digit_of (c : ascii) : option N :=
  let n := N_of_ascii c in
  if (48 <=? n)%N && (n <=? 57)%N then Some (n - 48)%N else None.

Fixpoint digits_value (acc : N) (s : string) : option N :=
  match s with
  | EmptyString => Some acc
  | String c s' =>
      match digit_of c with
      | Some d => digits_value (10 * acc + d)%N s'
      | None => None
      end
  end.

(** A key is an array index when it is the canonical decimal form of an
    integer below [2^32 - 1]. *)
Definition array_index (s : string) : option N :=
  match s with
  | EmptyString => None
  | String c rest =>
      if Ascii.eqb c "0"%char
      then (if Str.is_empty rest then Some 0%N else None)
      else match digits_value 0 s with
           | Some n => if (n <? 4294967295)%N then Some n else None
           | None => None
           end
  end.

Section Enumerate.
Context {A : Type}.

Fixpoint insert_index (e : N * (string * A)) (l : list (N * (string * A)))
  : list (N * (string * A)) :=
  match l with
  | [] => [e]
  | e' :: l' =>
      if (fst e <=? fst e')%N then e :: l else e' :: insert_index e l'
  end.

Fixpoint index_entries (o : jsobject A) : list (N * (string * A)) :=
  match o with
  | [] => []
  | (k, v) :: o' =>
      match array_index k with
      | Some i => insert_index (i, (k, v)) (index_entries o')
      | None => index_entries o'
      end
  end.

Definition named_entries (o : jsobject A) : jsobject A :=
  filter (fun kv => match array_index (fst kv) with
                    | Some _ => false
                    | None => true
                    end) o.

(** own enumerable properties in [OrdinaryOwnPropertyKeys] order *)
Definition entries (o : jsobject A) : jsobject A :=
  map snd (index_entries o) ++ named_entries o.

(** [Object.keys(o)] *)
Definition keys (o : jsobject A) : list string := map fst (entries o).

(** [Object.values(o)] *)
Definition values (o : jsobject A) : list A := map snd (entries o).

End Enumerate.

End Obj.

(** ** Arrays *)

Module Arr.

Section Sort.
Context {A : Type}.
(** [le a b]: the comparator's result on [(a, b)] is not positive *)
Variable le : A -> A -> bool.

Fixpoint insert (a : A) (l : list A) : list A :=
  match l with
  | [] => [a]
  | b :: l' => if le a b then a :: l else b :: insert a l'
  end.

(** [l.sort(cmp)] for a consistent comparator: the sort is stable, so
    its result is the one of any stable sort. *)
Definition sort (l : list A) : list A := fold_right insert [] l.

(** [same c a]: the comparator finds [a] and [c] equal *)
Definition same (c a : A) : bool := le a c && le c a.

End Sort.

(** [Array.from(new Set(l))]: first occurrences, in order *)
Fixpoint unique_from (seen : list string) (l : list string) : list string :=
  match l with
  | [] => []
  | s :: l' =>
      if existsb (String.eqb s) seen then unique_from seen l'
      else s :: unique_from (s :: seen) l'
  end.

Definition unique (l : list string) : list string := unique_from [] l.

End Arr.

(** ** The response payload ([types.ts]) *)

Inductive chart_type : Type :=
| line | bar | scatter | hist | box | heatmap | none.

Inductive dtype : Type := datetime | category | number.

(** An axis descriptor: a bare column name, or an object with the column,
    an optional dtype hint and an optional sort flag. *)
Inductive axis : Type :=
| AxisColumn (col : string)
| AxisObject (col : string) (hint : option dtype) (sort : option bool).

(** the column a descriptor names, and whether it carries a sort flag *)
Definition column_of (a : axis) : string :=
  match a with
  | AxisColumn col => col
  | AxisObject col _ _ => col
  end.

Definition sort_flag (a : axis) : bool :=
  match a with
  | AxisObject _ _ (Some true) => true
  | _ => false
  end.

Inductive sort_order : Type := asc | desc.

Record top_k : Type := {
  top_col : option string;
  top_count : option nat;
  top_by : option string;
  top_order : option sort_order
}.

Inductive orientation : Type := vertical | horizontal.

Record chart_spec : Type := {
  chart_kind : chart_type;
  chart_title : option string;
  chart_x : axis;
  chart_y : axis;
  chart_series : option string;
  chart_top_k : option top_k;
  chart_orientation : option orientation;
  chart_stacked : option bool;
  chart_max_points : option nat
}.

Definition with_x (c : chart_spec) (a : axis) : chart_spec :=
  {| chart_kind := chart_kind c;
     chart_title := chart_title c;
     chart_x := a;
     chart_y := chart_y c;
     chart_series := chart_series c;
     chart_top_k := chart_top_k c;
     chart_orientation := chart_orientation c;
     chart_stacked := chart_stacked c;
     chart_max_points := chart_max_points c |}.

Definition with_kind (c : chart_spec) (k : chart_type) : chart_spec :=
  {| chart_kind := k;
     chart_title := chart_title c;
     chart_x := chart_x c;
     chart_y := chart_y c;
     chart_series := chart_series c;
     chart_top_k := chart_top_k c;
     chart_orientation := chart_orientation c;
     chart_stacked := chart_stacked c;
     chart_max_points := chart_max_points c |}.

Inductive response_mode : Type := rag | template | sql | error.

Section Payload.

Context {JSN : JSNumber}.

Definition row : Type := jsobject value.

(** [ChatResponse] *)
Record ChatResponse : Type := {
  answer : string;
  resp_sql : option string;
  resp_data : option (list row);
  resp_data_preview : option (list row);
  resp_chart : option chart_spec;
  resp_chart_image_url : option string;
  resp_sources : option (list string);
  resp_mode : response_mode;
  resp_cached : option bool
}.

(** [row[k]]: a property that is not there reads as [undefined] *)
Definition prop (r : row) (k : string) : value :=
  match Obj.get r k with
  | Some v => v
  | None => VUndefined
  end.

End Payload.

(** ** [ChartRenderer.tsx] *)

Module ChartRenderer.

(** What [row[config.x]] uses as the property name.  The message list hands
    the response's chart object over as it is, so an axis can be an
    object; as a property key an object reads ["[object Object]"]. *)
Definition property_key (a : axis) : string :=
  match a with
  | AxisColumn col => col
  | AxisObject _ _ _ => "[object Object]"
  end.

(** both axes are bare column names, as [ChartRendererProps] declares
    them *)
Definition bare_axes (c : chart_spec) : bool :=
  match chart_x c, chart_y c with
  | AxisColumn _, AxisColumn _ => true
  | _, _ => false
  end.

(** truthiness of an optional string: present and not empty *)
Definition truthy (s : option string) : option string :=
  match s with
  | Some t => if Str.is_empty t then None else Some t
  | None => None
  end.

Definition colors : list string :=
  [ "#8884d8"; "#82ca9d"; "#ffc658"; "#ff7300"; "#8dd1e1";
    "#d084d0"; "#ffb347"; "#87ceeb"; "#da70d6"; "#98d8c8" ].

Inductive plot : Type := LineChart | BarChart.

Section Render.

Context {JSN : JSNumber}.

(** What the component returns. *)
Record chart_view : Type := {
  view_title : option string;
  view_plot : plot;
  view_data : list row;
  view_x_key : string;
  view_legend : bool;
  (** one mark per series: data key and colour *)
  view_marks : list (string * string)
}.

Inductive element : Type :=
  | NoDataToDisplay
  | ChartContainer (v : chart_view).

Variable config : chart_spec.

Definition x_key : string := property_key (chart_x config).
Definition y_key : string := property_key (chart_y config).

(** [String(d[config.series])] over the rows, duplicates removed *)
Definition seriesValues (series : string) (data : list row) : list string :=
  Arr.unique (map (fun d => ToString (prop d series)) data).

(** the x value and the series value a row is filed under *)
Definition xValue_of (r : row) : string := ToString (prop r x_key).

Definition seriesValue_of (series : string) (r : row) : string :=
  ToString (prop r series).

(** *** The table [grouped]

    [grouped] starts as an empty object literal and the objects in it are
    literals too, so all of them inherit from [Object.prototype].  The loop
    is followed as far as the table goes.  An x value that names a member
    of the prototype finds that member in the test, so it gets no group,
    and its y value is assigned to a property of the member.  That
    assignment leaves the table as it is; what else it does (it throws for
    a read-only property of the member, and for the x value [__proto__] it
    puts a property on [Object.prototype] that later lookups would find)
    is not followed. *)

(** One object of the table: its own properties, and whether an assignment
    has cut it off from [Object.prototype]. *)
Record group : Type := {
  own : row;
  detached : bool
}.

(** [g[k] = v] for a cell value [v].  Under any name but [__proto__] the
    property is set on the object itself.  [__proto__] is a property of the
    object only when the object has one of its own or has been cut off from
    the prototype; otherwise the assignment goes to the accessor on
    [Object.prototype], whose setter takes [null] as the new prototype and
    ignores every other cell value. *)
Definition assign (g : group) (k : string) (v : value) : group :=
  if String.eqb k "__proto__" && negb (Obj.has (own g) k) && negb (detached g)
  then match v with
       | VNull => {| own := own g; detached := true |}
       | _ => g
       end
  else {| own := Obj.set (own g) k v; detached := detached g |}.

(** the object a new x value starts with: the x value itself under a
    computed key, which is always a property of its own, then every series
    assigned zero *)
Definition fresh_group (sv : list string) (xValue : string) : group :=
  fold_left (fun g s => assign g s (VNum num_zero)) sv
            {| own := [(x_key, VStr xValue)]; detached := false |}.

(** body of [data.forEach] *)
Definition group_row (series : string) (sv : list string)
           (grouped : jsobject group) (r : row) : jsobject group :=
  let xValue := ToString (prop r x_key) in
  let seriesValue := ToString (prop r series) in
  let yValue := prop r y_key in
  let grouped1 :=
    match Obj.lookup grouped xValue with
    | Obj.Missing => Obj.set grouped xValue (fresh_group sv xValue)
    | _ => grouped
    end in
  match Obj.lookup grouped1 xValue with
  | Obj.Own g => Obj.set grouped1 xValue (assign g seriesValue yValue)
  | _ => grouped1   (* the assignment goes to the member, not to the table *)
  end.

(** the table [grouped] after the loop *)
Definition groups (series : string) (data : list row) : jsobject group :=
  fold_left (group_row series (seriesValues series data)) data [].

(** the table by the own properties of its objects, which is what
    [Object.values] and the chart read *)
Definition pivot (series : string) (data : list row) : jsobject row :=
  Obj.map_values own (groups series data).

(** the cell of the pivot table for an x value and a series value *)
Definition cell (grouped : jsobject row) (x s : string) : option value :=
  match Obj.get grouped x with
  | Some o => Obj.get o s
  | None => None
  end.

Definition files_under (series x s : string) (r : row) : bool :=
  String.eqb (xValue_of r) x && String.eqb (seriesValue_of series r) s.

(** the last row, in input order, filed under a given x value and series
    value *)
Definition last_row (series x s : string) (data : list row) : option row :=
  find (files_under series x s) (rev data).

Definition x_observed (x : string) (data : list row) : bool :=
  existsb (fun r => String.eqb (xValue_of r) x) data.

(** a row that meets no name of [Object.prototype] on its way into the
    table *)
Definition files_plainly (series : string) (r : row) : Prop :=
  Obj.inherited (xValue_of r) = false
  /\ seriesValue_of series r <> "__proto__".

(** The property names a render reads or writes under: the two column
    names and, with a series column, its name, the x values and the series
    values of the rows. *)
Definition names_used (data : list row) : list string :=
  x_key :: y_key ::
  match truthy (chart_series config) with
  | Some series =>
      series :: map xValue_of data ++ map (seriesValue_of series) data
  | None => []
  end.

(** none of them is a name of [Object.prototype] *)
Definition own_names (data : list row) : bool :=
  forallb (fun k => negb (Obj.inherited k)) (names_used data).

(** *** The pivot in the words of the specification

    There a row has an x value and a y value: its cells in the columns
    that the axis descriptors name. *)
Definition observed_x (r : row) : string :=
  ToString (prop r (column_of (chart_x config))).

Definition observed_y (r : row) : value :=
  prop r (column_of (chart_y config)).

(** the last row in input order having a given x value and a given series
    value *)
Definition last_observed (series x s : string) (data : list row)
  : option row :=
  find (fun r => String.eqb (observed_x r) x
                 && String.eqb (seriesValue_of series r) s)
       (rev data).

(** the comparator of both [sort] calls, as a test [aVal - bVal <= 0] *)
Definition x_le (a b : row) : bool :=
  num_leb (number_or_zero (prop a x_key)) (number_or_zero (prop b x_key)).

(** the rows of the branch without a series column *)
Definition xy_rows (data : list row) : list row :=
  map (fun r => Obj.set (Obj.set [] x_key (prop r x_key))
                        y_key (prop r y_key)) data.

(** the array [sort] is called on, by branch *)
Definition unsorted (data : list row) : list row :=
  match truthy (chart_series config) with
  | Some series => Obj.values (pivot series data)
  | None => xy_rows data
  end.

Definition chartData (data : list row) : list row :=
  Arr.sort x_le (unsorted data).

(** The ordering the specification attaches to a sort flag, in its words:
    the input rows in ascending numeric order of the x column that the
    descriptor names. *)
Definition ordered_by_x_column (data : list row) : list row :=
  Arr.sort (fun a b =>
              num_leb (number_or_zero (prop a (column_of (chart_x config))))
                      (number_or_zero (prop b (column_of (chart_x config)))))
           data.

Fixpoint series_marks (idx : nat) (sv : list string) : list (string * string) :=
  match sv with
  | [] => []
  | s :: sv' =>
      (s, nth (idx mod length colors) colors "") :: series_marks (S idx) sv'
  end.

Definition marks (data : list row) : list (string * string) :=
  match truthy (chart_series config) with
  | Some series => series_marks 0 (seriesValues series data)
  | None => [(y_key, "#8884d8")]
  end.

Definition is_line (t : chart_type) : bool :=
  match t with line => true | _ => false end.

Definition render (data : list row) : element :=
  match data with
  | [] => NoDataToDisplay
  | _ =>
      ChartContainer
        {| view_title := truthy (chart_title config);
           view_plot := if is_line (chart_kind config)
                        then LineChart else BarChart;
           view_data := chartData data;
           view_x_key := x_key;
           view_legend := match truthy (chart_series config) with
                          | Some _ => true
                          | None => false
                          end;
           view_marks := marks data |}
  end.

End Render.

End ChartRenderer.

(** ** Messages of the conversation ([ChatInterface.tsx], [MessageList.tsx]) *)

Inductive role : Type := user | assistant.

Definition mode_tag (m : response_mode) : string :=
  match m with
  | rag => "rag"
  | template => "template"
  | sql => "sql"
  | error => "error"
  end.

Section Messages.

Context {JSN : JSNumber}.

(** [interface Message] *)
Record Message : Type := {
  msg_id : string;
  msg_role : role;
  msg_content : string;
  msg_sql : option string;
  msg_data : option (list row);
  msg_data_preview : option (list row);
  msg_chart : option chart_spec;
  msg_chart_image_url : option string;
  msg_sources : option (list string);
  msg_mode : option string;
  msg_cached : option bool
}.

(** How the awaited [sendMessage] call ends: it returns the response, or
    throws an [Error] carrying a message. *)
Inductive send_outcome : Type :=
  | Resolved (response : ChatResponse)
  | Rejected (err_message : string).

(** [err.message || fallback] *)
Definition or_default (s fallback : string) : string :=
  if Str.is_empty s then fallback else s.

(** [handleSubmit]: the assistant message appended once [sendMessage] has
    settled; [id] is the identifier taken from the clock. *)
Definition handleSubmit_message (id : string) (o : send_outcome) : Message :=
  match o with
  | Resolved response =>
      {| msg_id := id;
         msg_role := assistant;
         msg_content := answer response;
         msg_sql := resp_sql response;
         msg_data := resp_data response;
         msg_data_preview := resp_data_preview response;
         msg_chart := resp_chart response;
         msg_chart_image_url := resp_chart_image_url response;
         msg_sources := resp_sources response;
         msg_mode := Some (mode_tag (resp_mode response));
         msg_cached := resp_cached response |}
  | Rejected err_message =>
      {| msg_id := id;
         msg_role := assistant;
         msg_content :=
           "Error: " ++ or_default err_message "Failed to process your request";
         msg_sql := None;
         msg_data := None;
         msg_data_preview := None;
         msg_chart := None;
         msg_chart_image_url := None;
         msg_sources := None;
         msg_mode := Some "error";
         msg_cached := None |}
  end.

(** how many of the two chart outputs a result carries *)
Definition chart_outputs (m : Message) : nat :=
  (match msg_chart_image_url m with Some _ => 1 | None => 0 end)
  + (match msg_chart m with Some _ => 1 | None => 0 end).

(** *** The chart blocks of one message in [MessageList] *)

Inductive chart_block : Type :=
  | ImageBlock (src alt : string)
  | RendererBlock (el : ChartRenderer.element).

(** [message.chart?.title || "Chart"] *)
Definition image_alt (m : Message) : string :=
  match msg_chart m with
  | Some c => match ChartRenderer.truthy (chart_title c) with
              | Some t => t
              | None => "Chart"
              end
  | None => "Chart"
  end.

(** [message.chart_image_url && <img ... />] *)
Definition image_blocks (m : Message) : list chart_block :=
  match ChartRenderer.truthy (msg_chart_image_url m) with
  | Some url => [ImageBlock url (image_alt m)]
  | None => []
  end.

(** [message.chart && !message.chart_image_url && <ChartRenderer ... />],
    with [data = message.data || []] *)
Definition renderer_blocks (m : Message) : list chart_block :=
  match msg_chart m, ChartRenderer.truthy (msg_chart_image_url m) with
  | Some c, None =>
      [RendererBlock
         (ChartRenderer.render c
            (match msg_data m with Some d => d | None => [] end))]
  | _, _ => []
  end.

Definition chart_blocks (m : Message) : list chart_block :=
  image_blocks m ++ renderer_blocks m.

End Messages.

(** ** The data preview ([DataPreview.tsx], [ChatInterface.tsx],
       [MessageList.tsx]) *)

Section Preview.

Context {JSN : JSNumber}.

(** [interface PreviewData] *)
Record PreviewData : Type := {
  columns : list string;
  preview_rows : list row;
  row_count : nat;
  preview_error : option string
}.

(** How the request to the preview interface ends. *)
Inductive fetch_outcome : Type :=
  | FetchThrows (err_message : string)   (* no response arrived *)
  | FetchStatus (ok : bool) (body : PreviewData).

(** [String(row[col] ?? '')] *)
Definition cell_text (r : row) (col : string) : string :=
  let v := prop r col in
  if is_nullish v then "" else ToString v.

Record preview_table : Type := {
  table_head : list string;
  table_body : list (list string);
  table_note : nat
}.

Definition table_of (p : PreviewData) : preview_table :=
  {| table_head := columns p;
     table_body := map (fun r => map (cell_text r) (columns p)) (preview_rows p);
     table_note := row_count p |}.

(** what either consumer puts on the page for the preview *)
Inductive preview_element : Type :=
  | NoPreview
  | LoadingToggle (expanded : bool)
  | PreviewToggle (expanded : bool) (shown : option preview_table).

Definition panel (expanded : bool) (p : PreviewData) : preview_element :=
  PreviewToggle expanded (if expanded then Some (table_of p) else None).

End Preview.

(** *** The stand-alone component *)
Module DataPreview.
Section Component.

Context {JSN : JSNumber}.

Record state : Type := {
  previewData : option PreviewData;
  loading : bool;
  error_text : option string;
  expanded : bool
}.

Definition initial : state :=
  {| previewData := None; loading := true;
     error_text := None; expanded := false |}.

(** the effect of [fetchPreview] on the state *)
Definition fetchPreview (o : fetch_outcome) (s : state) : state :=
  match o with
  | FetchThrows m =>
      {| previewData := previewData s; loading := false;
         error_text := Some m; expanded := expanded s |}
  | FetchStatus false _ =>
      {| previewData := previewData s; loading := false;
         error_text := Some "Failed to fetch data preview";
         expanded := expanded s |}
  | FetchStatus true body =>
      {| previewData := Some body; loading := false;
         error_text := error_text s; expanded := expanded s |}
  end.

Definition render (s : state) : preview_element :=
  if loading s then LoadingToggle (expanded s)
  else
    match ChartRenderer.truthy (error_text s),
          previewData s with
    | Some _, _ => NoPreview
    | None, None => NoPreview
    | None, Some p =>
        match ChartRenderer.truthy (preview_error p) with
        | Some _ => NoPreview
        | None =>
            match preview_rows p with
            | [] => NoPreview
            | _ => panel (expanded s) p
            end
        end
    end.

End Component.
End DataPreview.

(** *** The preview inside the chat *)
Module ChatPreview.
Section Component.

Context {JSN : JSNumber}.

Record state : Type := {
  previewData : option PreviewData;
  previewLoading : bool;
  (** the chat's own [error] banner *)
  chat_error : string;
  expandedPreview : bool
}.

Definition initial : state :=
  {| previewData := None; previewLoading := true;
     chat_error := ""; expandedPreview := false |}.

(** [fetchPreview] in [ChatInterface]: a body is stored when the status
    is ok; anything else is dropped silently. *)
Definition fetchPreview (o : fetch_outcome) (s : state) : state :=
  match o with
  | FetchStatus true body =>
      {| previewData := Some body; previewLoading := false;
         chat_error := chat_error s; expandedPreview := expandedPreview s |}
  | _ =>
      {| previewData := previewData s; previewLoading := false;
         chat_error := chat_error s; expandedPreview := expandedPreview s |}
  end.

(** the preview part of the welcome message in [MessageList]:
    [previewData && !previewLoading && ...] *)
Definition render (s : state) : preview_element :=
  match previewData s, previewLoading s with
  | Some p, false => panel (expandedPreview s) p
  | _, _ => NoPreview
  end.

End Component.
End ChatPreview.

(** ** [DataTable.tsx]: CSV export *)

Module DataTable.

Definition comma_s : string := String Str.comma EmptyString.
Definition quote_s : string := String Str.dquote EmptyString.
Definition newline_s : string := String Str.newline EmptyString.

Section CsvExport.

Context {JSN : JSNumber}.

(** [fullData || data]: an array, even an empty one, is truthy *)
Definition datasetForCSV (fullData : option (list row)) (data : list row)
  : list row :=
  match fullData with
  | Some full => full
  | None => data
  end.

Definition needs_quotes (s : string) : bool :=
  Str.contains_char Str.comma s
  || Str.contains_char Str.dquote s
  || Str.contains_char Str.newline s.

(** the text of one cell *)
Definition csv_cell (v : value) : string :=
  if is_nullish v then ""
  else
    let stringValue := ToString v in
    if needs_quotes stringValue
    then quote_s ++ Str.double_quotes stringValue ++ quote_s
    else stringValue.

Definition csv_row (allColumns : list string) (r : row) : string :=
  Str.join comma_s (map (fun col => csv_cell (prop r col)) allColumns).

(** [csvContent]; nothing is produced for an empty data set *)
Definition csvContent (dataset : list row) : option string :=
  match dataset with
  | [] => None
  | first :: _ =>
      let allColumns := Obj.keys first in
      let header := Str.join comma_s allColumns in
      let rows := map (csv_row allColumns) dataset in
      Some (Str.join newline_s (header :: rows))
  end.

Definition downloadCSV (fullData : option (list row)) (data : list row)
  : option string :=
  csvContent (datasetForCSV fullData data).

(** the lines of the file: [header], then [rows] *)
Definition csv_lines (dataset : list row) : list string :=
  match dataset with
  | [] => []
  | first :: _ =>
      Str.join comma_s (Obj.keys first)
        :: map (csv_row (Obj.keys first)) dataset
  end.

(** a text without carriage return *)
Definition no_return (s : string) : bool :=
  negb (Str.contains_char Str.carriage_return s).

(** the text a cell stands for: null and undefined are the empty text *)
Definition cell_value_text (v : value) : string :=
  if is_nullish v then "" else ToString v.

(** the table a reader of the file is meant to get back: the column
    names, then the cells of every row as text *)
Definition exported_table (dataset : list row) : list (list string) :=
  match dataset with
  | [] => []
  | first :: _ =>
      let allColumns := Obj.keys first in
      allColumns
        :: map (fun r => map (fun col => cell_value_text (prop r col))
                             allColumns)
               dataset
  end.

End CsvExport.

End DataTable.

(** ** Reading CSV

    The reader of RFC 4180, taking a line feed, a carriage return or the
    two in sequence as the line break, as the usual readers do: fields are
    separated by commas, a field in double quotes may hold commas, line
    breaks and doubled double quotes, and a line break after the last
    record ends that record without starting another.  An empty line is a
    record of one empty field, as in the grammar of the RFC. *)

Module Csv.

Inductive mode : Type :=
  | Bare          (* outside quotes *)
  | Quoted        (* inside a quoted field *)
  | QuoteSeen.    (* inside a quoted field, just after a double quote *)

Definition push_char (c : ascii) (t : list (list string)) : list (list string) :=
  match t with
  | (f :: fs) :: rs => (String c f :: fs) :: rs
  | [] :: rs => [String c EmptyString] :: rs
  | [] => [[String c EmptyString]]
  end.

Definition new_field (t : list (list string)) : list (list string) :=
  match t with
  | fs :: rs => (EmptyString :: fs) :: rs
  | [] => [[EmptyString]]
  end.

Definition new_record (t : list (list string)) : list (list string) :=
  [EmptyString] :: t.

(** [line_break rest t]: a line break followed by the text [rest], which
    reads as [t]; at the end of the text it starts no record *)
Definition line_break (rest : string) (t : list (list string))
  : list (list string) :=
  match rest with
  | EmptyString => t
  | String _ _ => new_record t
  end.

Fixpoint parse_in (m : mode) (s : string) : list (list string) :=
  match s with
  | EmptyString => [[EmptyString]]
  | String c s' =>
      match m with
      | Quoted =>
          if Ascii.eqb c Str.dquote then parse_in QuoteSeen s'
          else push_char c (parse_in Quoted s')
      | QuoteSeen | Bare =>
          if Ascii.eqb c Str.dquote then
            match m with
            | QuoteSeen => push_char c (parse_in Quoted s')
            | _ => parse_in Quoted s'
            end
          else if Ascii.eqb c Str.comma then new_field (parse_in Bare s')
          else if Ascii.eqb c Str.newline then
            line_break s' (parse_in Bare s')
          else if Ascii.eqb c Str.carriage_return then
            match s' with
            | String d s'' =>
                if Ascii.eqb d Str.newline
                then line_break s'' (parse_in Bare s'')
                else new_record (parse_in Bare s')
            | EmptyString => [[EmptyString]]
            end
          else push_char c (parse_in Bare s')
      end
  end.

Definition parse (s : string) : list (list string) := parse_in Bare s.

(** [push_string t table]: the text [t] put in front of the first field *)
Fixpoint push_string (t : string) (table : list (list string))
  : list (list string) :=
    match t with
    | EmptyString => table
    | String c t' => push_char c (push_string t' table)
    end.

(** what may follow a field: nothing, or anything but a double quote *)
Definition ends_field (rest : string) : bool :=
  match rest with
  | EmptyString => true
  | String c _ => negb (Ascii.eqb c Str.dquote)
  end.

(** [decodes e t]: wherever a field may stand, the written form [e] is read
    back as the text [t] *)
Definition decodes (e t : string) : Prop :=
  forall rest, ends_field rest = true ->
               parse_in Bare (e ++ rest) = push_string t (parse_in Bare rest).

(** [reads_as_line l fields]: at the end of the text or before a line
    feed, the line [l] is read back as the record [fields] *)
Definition reads_as_line (l : string) (fields : list string) : Prop :=
  forall rest records,
    ends_field rest = true ->
    parse_in Bare rest = [EmptyString] :: records ->
    parse_in Bare (l ++ rest) = fields :: records.

End Csv.

(** ** Generation loops (QueryGenerator, ChartSpecGenerator) *)

Module GenerationLoop.

(** Modelled from the spec: the generation/validation/retry state machine
    of QueryGenerator, which ChartSpecGenerator mirrors (sections 4.1, 4.3,
    5 and 7).  The repository's sources of both generators are not among
    the files at hand.  States are INIT, PROMPTED, GENERATED, VALIDATING,
    VALID, INVALID and FAILED; from INVALID the loop goes back to PROMPTED
    with the validator's findings as feedback while attempts remain, and to
    FAILED otherwise; a provider timeout or transport error is a failed
    attempt; an unavailable engine or catalog ends the loop at once. *)
Section Machine.

Context {prompt raw artifact reason : Type}.

(** PromptBuilder, for a fixed question and schema: the feedback of the
    previous attempt is the only varying part *)
Variable build_prompt : list reason -> prompt.

Inductive generation : Type :=
  | Text (t : raw)
  | ProviderFailure (r : reason).   (* timeout or transport error *)

(** InferenceProvider: the answer to the [n]-th call of a run *)
Variable provider : nat -> prompt -> generation.

Inductive verdict : Type :=
  | Accept (a : artifact)
  | Reject (findings : list reason)
  | Unavailable (r : reason).       (* engine or catalog cannot be reached *)

Variable validate : raw -> verdict.

Variable max_attempts : nat.

Inductive phase : Type :=
  | INIT
  | PROMPTED (p : prompt)
  | GENERATED (g : generation)
  | VALIDATING (t : raw)
  | VALID (a : artifact)
  | INVALID (findings : list reason)
  | FAILED (findings : list reason).

Record state : Type := {
  at_phase : phase;
  attempts : nat;      (* index of the current attempt, from 1 *)
  calls : nat          (* calls made to the inference provider *)
}.

Definition initial : state :=
  {| at_phase := INIT; attempts := 0; calls := 0 |}.

Definition terminal (s : state) : bool :=
  match at_phase s with
  | VALID _ | FAILED _ => true
  | _ => false
  end.

Definition step (s : state) : state :=
  match at_phase s with
  | INIT =>
      {| at_phase := PROMPTED (build_prompt []);
         attempts := 1; calls := calls s |}
  | PROMPTED p =>
      {| at_phase := GENERATED (provider (calls s) p);
         attempts := attempts s; calls := S (calls s) |}
  | GENERATED (Text t) =>
      {| at_phase := VALIDATING t;
         attempts := attempts s; calls := calls s |}
  | GENERATED (ProviderFailure r) =>
      {| at_phase := INVALID [r];
         attempts := attempts s; calls := calls s |}
  | VALIDATING t =>
      {| at_phase := match validate t with
                     | Accept a => VALID a
                     | Reject findings => INVALID findings
                     | Unavailable r => FAILED [r]
                     end;
         attempts := attempts s; calls := calls s |}
  | INVALID findings =>
      if (attempts s <? max_attempts)%nat
      then {| at_phase := PROMPTED (build_prompt findings);
              attempts := S (attempts s); calls := calls s |}
      else {| at_phase := FAILED findings;
              attempts := attempts s; calls := calls s |}
  | VALID _ | FAILED _ => s
  end.

Fixpoint run (fuel : nat) (s : state) : state :=
  match fuel with
  | O => s
  | S fuel' => if terminal s then s else run fuel' (step s)
  end.

(** What holds of every state a run goes through: the attempt index
    stays within the budget, and the provider has been called once per
    attempt begun (the current one excepted while it is only prompted). *)
Definition within_budget (s : state) : Prop :=
  match at_phase s with
  | INIT => attempts s = 0 /\ calls s = 0
  | PROMPTED _ =>
      1 <= attempts s <= max_attempts /\ S (calls s) = attempts s
  | GENERATED _ | VALIDATING _ | INVALID _ =>
      1 <= attempts s <= max_attempts /\ calls s = attempts s
  | VALID _ | FAILED _ => calls s <= max_attempts
  end.

(** an upper bound on the steps left before a terminal state *)
Definition steps_left (s : state) : nat :=
  match at_phase s with
  | INIT => 4 * max_attempts + 1
  | PROMPTED _ => 4 * (max_attempts - attempts s) + 4
  | GENERATED _ => 4 * (max_attempts - attempts s) + 3
  | VALIDATING _ => 4 * (max_attempts - attempts s) + 2
  | INVALID _ => 4 * (max_attempts - attempts s) + 1
  | VALID _ | FAILED _ => 0
  end.

(** steps that always suffice: one to leave INIT, three per attempt, one
    between attempts and one to fail *)
Definition enough : nat := 4 * max_attempts + 1.

(** the outcome of a loop: a validated artifact or a terminal failure *)
Definition generate : state := run enough initial.

End Machine.

(** the configured default *)
Definition default_max_attempts : nat := 3.

End GenerationLoop.

(** ** PipelineOrchestrator and its response cache *)

Module PipelineOrchestrator.

Import stdpp.base stdpp.strings stdpp.gmap.

(** Modelled from the spec: PipelineOrchestrator (section 4.5), whose
    source is not among the files at hand.  The cache is keyed by a
    normalized form of (question text, schema version); it is looked up
    before QueryGenerator is invoked; a hit returns the stored result with
    its cache-hit flag set and does no other work; a miss computes the
    full pipeline and stores the result before returning it. *)
Section Orchestrator.

Context {JSN : JSNumber}.

(** the work a run causes, by stage *)
Record work : Type := {
  provider_calls : nat;
  engine_calls : nat;
  renders : nat
}.

Variable normalize : string -> string.

(** QueryGenerator, QueryExecutor, ChartSpecGenerator and ChartRenderer in
    sequence, for a question against a schema version *)
Variable pipeline : string -> nat -> work -> ChatResponse * work.

Record state : Type := {
  cache : gmap (string * nat) ChatResponse;
  done_work : work
}.

Definition cache_key (question : string) (schema_version : nat)
  : string * nat :=
  (normalize question, schema_version).

Definition set_cached (r : ChatResponse) : ChatResponse :=
  {| answer := answer r;
     resp_sql := resp_sql r;
     resp_data := resp_data r;
     resp_data_preview := resp_data_preview r;
     resp_chart := resp_chart r;
     resp_chart_image_url := resp_chart_image_url r;
     resp_sources := resp_sources r;
     resp_mode := resp_mode r;
     resp_cached := Some true |}.

Definition handle (question : string) (schema_version : nat) (s : state)
  : ChatResponse * state :=
  let k := cache_key question schema_version in
  match cache s !! k with
  | Some stored => (set_cached stored, s)
  | None =>
      let '(r, w) := pipeline question schema_version (done_work s) in
      (r, {| cache := <[k := r]> (cache s); done_work := w |})
  end.

(** the orchestrator at process start: nothing cached, no work done *)
Definition start : state :=
  {| cache := ∅;
     done_work := {| provider_calls := 0; engine_calls := 0; renders := 0 |} |}.

(** the responses to a sequence of requests, each a question against a
    schema version, handled one after the other *)
Fixpoint responses (requests : list (string * nat)) (s : state)
  : list ChatResponse :=
  match requests with
  | [] => []
  | (question, schema_version) :: rest =>
      fst (handle question schema_version s)
        :: responses rest (snd (handle question schema_version s))
  end.

End Orchestrator.

(** Modelled from the spec: how a pipeline run assembles its result
    (sections 2, 4.5 and 7); the orchestrator's source is not among the
    files at hand.  The stages run in sequence: QueryGenerator,
    QueryExecutor, ChartSpecGenerator, ChartRenderer.  A stage either
    passes its product on or surfaces an error with a user-facing message
    (a generator does so once its attempt budget is exhausted).  A surfaced
    error gives a result with mode error and that message, and with none of
    the products of the stages that passed before it; a run whose stages
    all pass gives a result with the products attached. *)
Inductive stage (A : Type) : Type :=
  | Passes (product : A)
  | Surfaces (user_message : string).

Arguments Passes {A} product.
Arguments Surfaces {A} user_message.

(** the mode tags of a result that is no error *)
Inductive answered : Type := GeneratedAnswer | TemplatedAnswer | DirectQuery.

Definition mode_of (a : answered) : response_mode :=
  match a with
  | GeneratedAnswer => rag
  | TemplatedAnswer => template
  | DirectQuery => sql
  end.

Section Assembly.

Context {JSN : JSNumber}.

(** QueryResult, as far as the response uses it *)
Record QueryResult : Type := {
  result_rows : list row;
  result_preview : list row
}.

Variable query_generator : string -> nat -> stage string.
Variable query_executor : string -> stage QueryResult.
Variable chart_spec_generator : string -> QueryResult -> stage chart_spec.
(** the image reference, when the renderer produces an image *)
Variable chart_renderer : chart_spec -> QueryResult -> stage (option string).
Variable answer_text : string -> QueryResult -> string.
Variable answer_mode : string -> QueryResult -> answered.
(** the work a run causes, added to the work done before *)
Variable effort : string -> nat -> work -> work.

(** Modelled from the spec: the result of a surfaced error (section 7),
    mode error and a user-facing message, nothing else attached *)
Definition error_result (user_message : string) : ChatResponse :=
  {| answer := user_message;
     resp_sql := None;
     resp_data := None;
     resp_data_preview := None;
     resp_chart := None;
     resp_chart_image_url := None;
     resp_sources := None;
     resp_mode := error;
     resp_cached := Some false |}.

(** Modelled from the spec: the stages in sequence (sections 2 and 4.5);
    the first error that surfaces ends the run *)
Definition assemble (question : string) (schema_version : nat)
  : ChatResponse :=
  match query_generator question schema_version with
  | Surfaces m => error_result m
  | Passes query =>
      match query_executor query with
      | Surfaces m => error_result m
      | Passes result =>
          match chart_spec_generator question result with
          | Surfaces m => error_result m
          | Passes chart =>
              match chart_renderer chart result with
              | Surfaces m => error_result m
              | Passes image =>
                  {| answer := answer_text question result;
                     resp_sql := Some query;
                     resp_data := Some (result_rows result);
                     resp_data_preview := Some (result_preview result);
                     resp_chart := Some chart;
                     resp_chart_image_url := image;
                     resp_sources := None;
                     resp_mode := mode_of (answer_mode question result);
                     resp_cached := Some false |}
              end
          end
      end
  end.

(** the pipeline the orchestrator runs on a cache miss *)
Definition run_pipeline (question : string) (schema_version : nat) (w : work)
  : ChatResponse * work :=
  (assemble question schema_version, effort question schema_version w).

End Assembly.

End PipelineOrchestrator.

(** ** Integer data

    The instance used by the examples and by nothing else: numbers are
    integers, printed and read in plain decimal.  It agrees with
    JavaScript on integers below [10^21] in absolute value and on texts
    that are plain decimal integers; a text with a fraction or an exponent,
    which [Number] reads, is no number of this instance. *)

Module IntegerData.

Definition z_to_string (z : Z) : string :=
  DecimalString.NilZero.string_of_int (Z.to_int z).

Definition string_to_z (s : string) : option Z :=
  if Str.is_empty s then Some 0%Z
  else option_map Z.of_int (DecimalString.NilZero.int_of_string s).

#[export] Instance numbers : JSNumber := {|
    num := Z;
    num_zero := 0%Z;
    num_one := 1%Z;
    num_leb := Z.leb;
    num_leb_total := ltac:(intros a b; destruct (Z.leb_spec a b);
                           [now left | right; apply Z.leb_le; lia]);
    num_leb_trans := ltac:(intros a b c; rewrite !Z.leb_le; lia);
    num_to_string := z_to_string;
    string_to_num := string_to_z
  |}.

End IntegerData.

(** ** Sample inputs *)

Module Samples.

Import IntegerData.

Definition spec (k : chart_type) (x y : axis) (series : option string)
  : chart_spec :=
  {| chart_kind := k; chart_title := None; chart_x := x; chart_y := y;
     chart_series := series; chart_top_k := None; chart_orientation := None;
     chart_stacked := None; chart_max_points := None |}.

(** rows [(x=1,s=A,y=5), (x=1,s=A,y=7), (x=1,s=B,y=2)] *)
Definition long_row (x : Z) (s : string) (y : Z) : row :=
  [("x", VNum x); ("s", VStr s); ("y", VNum y)].

Definition duplicates : list row :=
  [long_row 1 "A" 5; long_row 1 "A" 7; long_row 1 "B" 2].

Definition by_series : chart_spec :=
  spec line (AxisColumn "x") (AxisColumn "y") (Some "s").

(** the same chart with its axes given as descriptor objects *)
Definition described : chart_spec :=
  spec line (AxisObject "x" None None) (AxisObject "y" None None) (Some "s").

(** a row whose x value is a text *)
Definition named_row (x s : string) (y : Z) : row :=
  [("x", VStr x); ("s", VStr s); ("y", VNum y)].

(** a gap: no row for x = 2 and series A *)
Definition gaps : list row :=
  [long_row 1 "A" 5; long_row 2 "B" 3].

(** hours out of order, and a descriptor asking for them sorted *)
Definition hours : list row :=
  [ [("h", VNum 3%Z); ("n", VNum 10%Z)];
    [("h", VNum 1%Z); ("n", VNum 20%Z)] ].

Definition flagged : chart_spec :=
  spec bar (AxisObject "h" (Some number) (Some true)) (AxisColumn "n") None.

(** a provider that times out on every call, and one that answers at once *)
Definition always_times_out (n : nat) (p : string)
  : GenerationLoop.generation (raw := string) (reason := string) :=
  GenerationLoop.ProviderFailure "timeout".

Definition answers (n : nat) (p : string)
  : GenerationLoop.generation (raw := string) (reason := string) :=
  GenerationLoop.Text "SELECT 1".

Definition prompt_of (feedback : list string) : string :=
  Str.join "; " ("Top 10 pickup zones" :: feedback).

Definition accept_all (t : string)
  : GenerationLoop.verdict (artifact := string) (reason := string) :=
  GenerationLoop.Accept t.

Definition plain : chart_spec :=
  spec bar (AxisColumn "h") (AxisColumn "n") None.

(** a documentation answer: text and sources, no chart output at all *)
Definition text_only : ChatResponse :=
  {| answer := "PULocationID is the pickup zone."; resp_sql := None;
     resp_data := None; resp_data_preview := None; resp_chart := None;
     resp_chart_image_url := None; resp_sources := Some ["data_dictionary"];
     resp_mode := rag; resp_cached := Some false |}.

(** a charted answer that carries the specification and an image of it *)
Definition spec_and_image : ChatResponse :=
  {| answer := "Trips per hour."; resp_sql := Some "SELECT h, n FROM t";
     resp_data := Some hours; resp_data_preview := Some hours;
     resp_chart := Some plain;
     resp_chart_image_url := Some "/static/charts/1.png";
     resp_sources := None; resp_mode := sql; resp_cached := Some false |}.

(** the stages of a run whose query passes validation and then times out
    in the engine *)
Definition generator_passes (question : string) (schema_version : nat)
  : PipelineOrchestrator.stage string :=
  PipelineOrchestrator.Passes "SELECT zone, count(*) AS n FROM trips GROUP BY zone".

Definition executor_times_out (query : string)
  : PipelineOrchestrator.stage PipelineOrchestrator.QueryResult :=
  PipelineOrchestrator.Surfaces "The query took too long to run.".

Definition spec_of_result (question : string)
           (result : PipelineOrchestrator.QueryResult)
  : PipelineOrchestrator.stage chart_spec :=
  PipelineOrchestrator.Passes plain.

Definition no_image (c : chart_spec) (result : PipelineOrchestrator.QueryResult)
  : PipelineOrchestrator.stage (option string) :=
  PipelineOrchestrator.Passes None.

Definition row_count_text (question : string)
           (result : PipelineOrchestrator.QueryResult) : string :=
  "Here are the rows.".

Definition as_direct_query (question : string)
           (result : PipelineOrchestrator.QueryResult)
  : PipelineOrchestrator.answered :=
  PipelineOrchestrator.DirectQuery.

Definition one_engine_call (question : string) (schema_version : nat)
           (w : PipelineOrchestrator.work) : PipelineOrchestrator.work :=
  {| PipelineOrchestrator.provider_calls :=
       S (PipelineOrchestrator.provider_calls w);
     PipelineOrchestrator.engine_calls :=
       S (PipelineOrchestrator.engine_calls w);
     PipelineOrchestrator.renders := PipelineOrchestrator.renders w |}.

Definition as_typed (question : string) : string := question.

(** a result whose second column is named by its expression *)
Definition averages : list row :=
  [ [("company", VStr "Uber"); ("round(avg(trip_miles), 2)", VNum 5%Z)];
    [("company", VStr "Lyft"); ("round(avg(trip_miles), 2)", VNum 4%Z)] ].

(** a preview body that reports a failure, delivered with an ok status *)
Definition failed_preview : PreviewData :=
  {| columns := []; preview_rows := []; row_count := 0;
     preview_error := Some "view fhv_with_company not found" |}.

End Samples.

(** ** The chat request ([api/chat.ts]) *)

Module ChatApi.

(** [import.meta.env.VITE_API_URL || 'http://localhost:8000'] *)
Definition API_URL (env : option string) : string :=
  match ChartRenderer.truthy env with
  | Some url => url
  | None => "http://localhost:8000"
  end.

(** [getApiPath]: a relative base already holds [/api] *)
Definition getApiPath (api_url endpoint : string) : string :=
  if String.prefix "/" api_url
  then api_url ++ endpoint
  else api_url ++ "/api" ++ endpoint.

(** [s.includes(part)] *)
Definition includes (s part : string) : bool :=
  match String.index 0 part s with
  | Some _ => true
  | None => false
  end.

(** [isDevMode] of [ChatInterface.tsx] *)
Definition isDevMode (api_url : string) : bool :=
  includes api_url "localhost"
  || includes api_url "127.0.0.1"
  || String.eqb api_url "/api".

(** first truthy of two optional texts, else the last operand:
    [a || b || c] *)
Definition first_truthy (a b : option string) (c : string) : string :=
  match ChartRenderer.truthy a, ChartRenderer.truthy b with
  | Some t, _ => t
  | None, Some t => t
  | None, None => c
  end.

Section Send.

Context {JSN : JSNumber}.

(** How the [axios.post] call ends.  A failure has a response (an error
    status; [detail] and [err] are the texts [data.detail] and [data.error]
    of the body, when it has
    them), or a request without a response, or neither. *)
Inductive post_outcome : Type :=
  | Responds (data : ChatResponse)
  | FailsWithResponse (detail err : option string) (statusText : string)
  | FailsWithoutResponse
  | FailsBeforeRequest (message : string).

(** [sendMessage]: the response data, or an [Error] with a message *)
Definition sendMessage (api_url : string) (o : post_outcome) : send_outcome :=
  match o with
  | Responds data => Resolved data
  | FailsWithResponse detail err statusText =>
      Rejected (or_default (first_truthy detail err statusText)
                           "Server error")
  | FailsWithoutResponse =>
      Rejected ("Cannot connect to backend. Is the server running on "
                  ++ api_url ++ "?")
  | FailsBeforeRequest message =>
      Rejected (or_default message "Network error")
  end.

End Send.

End ChatApi.

(** ** The chat as a state machine ([ChatInterface.tsx]) *)

Module ChatInterface.

Inductive LoadingStage : Type :=
  | idle
  | generating_sql
  | fetching_data
  | generating_visualization.

(** what [sendMessage] is called with *)
Record request : Type := {
  req_message : string;
  req_token : string
}.

Section Chat.

Context {JSN : JSNumber}.

(** [s.trim()] *)
Variable trim : string -> string.
Variable isDevMode : bool.

Record state : Type := {
  messages : list Message;
  input : string;
  loading : bool;
  loadingStage : LoadingStage;
  turnstileToken : string;
  error_banner : string;
  (** a stage timer is set and has neither fired nor been cleared *)
  stageTimer : bool;
  (** calls of [sendMessage] that have not settled *)
  in_flight : list request
}.

Definition welcome (text : string) : Message :=
  {| msg_id := "welcome"; msg_role := assistant; msg_content := text;
     msg_sql := None; msg_data := None; msg_data_preview := None;
     msg_chart := None; msg_chart_image_url := None; msg_sources := None;
     msg_mode := None; msg_cached := None |}.

Definition initial (welcome_text : string) : state :=
  {| messages := [welcome welcome_text]; input := ""; loading := false;
     loadingStage := idle; turnstileToken := ""; error_banner := "";
     stageTimer := false; in_flight := [] |}.

Definition userMessage (id content : string) : Message :=
  {| msg_id := id; msg_role := user; msg_content := content;
     msg_sql := None; msg_data := None; msg_data_preview := None;
     msg_chart := None; msg_chart_image_url := None; msg_sources := None;
     msg_mode := None; msg_cached := None |}.

(** the guard of [handleSubmit]:
    [!input.trim() || loading || (!turnstileToken && !isDevMode)] *)
Definition refused (s : state) : bool :=
  Str.is_empty (trim (input s))
  || loading s
  || (Str.is_empty (turnstileToken s) && negb isDevMode).

(** [turnstileToken || (isDevMode ? 'dev-token' : '')] *)
Definition token_sent (s : state) : string :=
  or_default (turnstileToken s) (if isDevMode then "dev-token" else "").

(** [handleSubmit] up to the call of [sendMessage] *)
Definition submit (id : string) (s : state) : state :=
  if refused s then s
  else
    {| messages := messages s ++ [userMessage id (trim (input s))];
       input := "";
       loading := true;
       loadingStage := generating_sql;
       turnstileToken := turnstileToken s;
       error_banner := "";
       stageTimer := true;
       in_flight := in_flight s
                    ++ [{| req_message := trim (input s);
                           req_token := token_sent s |}] |}.

(** [handleSubmit] from the point where [sendMessage] has settled: the
    try or the catch branch, then the finally block *)
Definition settle (id : string) (o : send_outcome) (s : state) : state :=
  match in_flight s with
  | [] => s
  | _ :: waiting =>
      {| messages := messages s ++ [handleSubmit_message id o];
         input := input s;
         loading := false;
         loadingStage := idle;
         turnstileToken := "";
         error_banner := match o with
                         | Resolved _ => error_banner s
                         | Rejected m => or_default m "Failed to send message"
                         end;
         stageTimer := false;
         in_flight := waiting |}
  end.

Inductive event : Type :=
  | Typed (text : string)
  | TurnstileSuccess (token : string)
  | TurnstileError
  | Submit (id : string)
  | TimerFires
  | Settles (id : string) (o : send_outcome).

Definition step (s : state) (e : event) : state :=
  match e with
  | Typed text =>
      {| messages := messages s; input := text; loading := loading s;
         loadingStage := loadingStage s; turnstileToken := turnstileToken s;
         error_banner := error_banner s; stageTimer := stageTimer s;
         in_flight := in_flight s |}
  | TurnstileSuccess token =>
      {| messages := messages s; input := input s; loading := loading s;
         loadingStage := loadingStage s; turnstileToken := token;
         error_banner := ""; stageTimer := stageTimer s;
         in_flight := in_flight s |}
  | TurnstileError =>
      {| messages := messages s; input := input s; loading := loading s;
         loadingStage := loadingStage s; turnstileToken := turnstileToken s;
         error_banner := "Turnstile verification failed";
         stageTimer := stageTimer s; in_flight := in_flight s |}
  | Submit id => submit id s
  | TimerFires =>
      if stageTimer s
      then {| messages := messages s; input := input s; loading := loading s;
              loadingStage := fetching_data;
              turnstileToken := turnstileToken s;
              error_banner := error_banner s; stageTimer := false;
              in_flight := in_flight s |}
      else s
  | Settles id o => settle id o s
  end.

Definition run (events : list event) (s : state) : state :=
  fold_left step events s.

(** the role of the last message *)
Definition last_role (s : state) : option role :=
  match rev (messages s) with
  | m :: _ => Some (msg_role m)
  | [] => None
  end.

(** What every state of the chat satisfies. *)
Definition consistent (s : state) : Prop :=
  (if loading s
   then length (in_flight s) = 1 /\ last_role s = Some user
   else in_flight s = [] /\ loadingStage s = idle /\ stageTimer s = false
        /\ last_role s = Some assistant)
  /\ (stageTimer s = true -> loadingStage s = generating_sql).

(** a sequence of events in which the challenge issues no token *)
Definition no_new_token (events : list event) : Prop :=
  Forall (fun e => match e with TurnstileSuccess _ => False | _ => True end)
         events.

End Chat.

End ChatInterface.

(** ** The table view of [DataTable.tsx] *)

Module DataTableView.

(** [l.slice(0, end)] for an integer [end]: a negative [end] counts from the
    back *)
Definition slice_to {A : Type} (finish : Z) (l : list A) : list A :=
  let len := Z.of_nat (length l) in
  firstn (Z.to_nat (if (finish <? 0)%Z
                    then Z.max (len + finish) 0
                    else Z.min finish len)) l.

(** the default of the [maxRows] property *)
Definition default_maxRows : Z := 10%Z.

Section View.

Context {JSN : JSNumber}.

Record table_view : Type := {
  (** [Showing {displayData.length} of {data.length} rows] *)
  info_showing : nat;
  info_total : nat;
  (** [({fullData.length} total rows available)] *)
  info_available : option nat;
  (** the download button, with its row count *)
  csv_button : option nat;
  thead : list string;
  tbody : list (list string);
  (** [Show all {data.length} rows] *)
  expand_button : option nat
}.

Inductive table_element : Type :=
  | NoData
  | Table (v : table_view).

Definition displayData (data : list row) (maxRows : Z) (expanded : bool)
  : list row :=
  if expanded then data else slice_to maxRows data.

Definition hasMore (data : list row) (maxRows : Z) : bool :=
  (maxRows <? Z.of_nat (length data))%Z.

Definition render (data : list row) (fullData : option (list row))
           (maxRows : Z) (expanded : bool) : table_element :=
  match data with
  | [] => NoData
  | first :: _ =>
      let columns := Obj.keys first in
      let datasetForCSV := DataTable.datasetForCSV fullData data in
      Table
        {| info_showing := length (displayData data maxRows expanded);
           info_total := length data;
           info_available :=
             match fullData with
             | Some full =>
                 if (length data <? length full)%nat then Some (length full)
                 else None
             | None => None
             end;
           csv_button := match datasetForCSV with
                         | [] => None
                         | _ => Some (length datasetForCSV)
                         end;
           thead := columns;
           tbody := map (fun r => map (cell_text r) columns)
                        (displayData data maxRows expanded);
           expand_button := if hasMore data maxRows && negb expanded
                            then Some (length data) else None |}
  end.

End View.

End DataTableView.

(** ** The sections of a message ([MessageList.tsx]) *)

Module MessageList.

Import stdpp.base stdpp.strings stdpp.gmap.

(** [toggleSQL] and [toggleData]: the set with [messageId] removed when it
    is there, added otherwise *)
Definition toggle (messageId : string) (prev : gset string) : gset string :=
  if decide (messageId ∈ prev) then prev ∖ {[messageId]}
  else prev ∪ {[messageId]}.

Section Sections.

Context {JSN : JSNumber}.

Definition non_empty (rows : option (list row)) : bool :=
  match rows with
  | Some (_ :: _) => true
  | _ => false
  end.

(** [(data_preview && data_preview.length > 0) || (data && data.length > 0)] *)
Definition has_rows (m : Message) : bool :=
  non_empty (msg_data_preview m) || non_empty (msg_data m).

(** the same test as the earlier version of the component writes it:
    [(data_preview || data) && (data_preview?.length > 0 || data?.length > 0)] *)
Definition has_rows_earlier (m : Message) : bool :=
  match msg_data_preview m, msg_data m with
  | None, None => false
  | _, _ => non_empty (msg_data_preview m) || non_empty (msg_data m)
  end.

(** [message.data_preview || message.data || []] *)
Definition table_data (m : Message) : list row :=
  match msg_data_preview m, msg_data m with
  | Some preview, _ => preview
  | None, Some data => data
  | None, None => []
  end.

Record sections : Type := {
  (** the two buttons, each with whether its section is open *)
  sql_button : option bool;
  data_button : option bool;
  sql_section : option string;
  data_section : option DataTableView.table_element
}.

(** the action buttons and the sections below them; the table of the data
    section starts collapsed, with the default row limit *)
Definition render_sections (expandedSQL expandedData : gset string)
           (m : Message) : sections :=
  {| sql_button :=
       match ChartRenderer.truthy (msg_sql m) with
       | Some _ => Some (bool_decide (msg_id m ∈ expandedSQL))
       | None => None
       end;
     data_button :=
       if has_rows m then Some (bool_decide (msg_id m ∈ expandedData))
       else None;
     sql_section :=
       match ChartRenderer.truthy (msg_sql m) with
       | Some text =>
           if bool_decide (msg_id m ∈ expandedSQL) then Some text else None
       | None => None
       end;
     data_section :=
       if has_rows m && bool_decide (msg_id m ∈ expandedData)
       then Some (DataTableView.render (table_data m) (msg_data m)
                                       DataTableView.default_maxRows false)
       else None |}.

(** what the download button of an open data section writes *)
Definition section_csv (m : Message) : option string :=
  match table_data m with
  | [] => None
  | _ => DataTable.downloadCSV (msg_data m) (table_data m)
  end.

End Sections.

End MessageList.

(** ** Sample inputs for the chat *)

Module ChatSamples.

Import IntegerData ChatInterface.

(** [trim] on texts of the ASCII range *)
Definition is_space (c : ascii) : bool :=
  let n := nat_of_ascii c in
  (n =? 32)%nat || ((9 <=? n)%nat && (n <=? 13)%nat).

Fixpoint trim_start (s : string) : string :=
  match s with
  | EmptyString => EmptyString
  | String c s' => if is_space c then trim_start s' else s
  end.

Fixpoint trim_end (s : string) : string :=
  match s with
  | EmptyString => EmptyString
  | String c s' =>
      match trim_end s' with
      | EmptyString => if is_space c then EmptyString else String c EmptyString
      | t => String c t
      end
  end.

Definition trim_ascii (s : string) : string := trim_end (trim_start s).

(** production mode, a token issued and a question typed *)
Definition ready : state :=
  run trim_ascii false
      [TurnstileSuccess "tok-1"; Typed "  Top 10 pickup zones "]
      (initial "Welcome!").

(** the same, submitted and waiting for the answer *)
Definition waiting : state := submit trim_ascii false "1700000000000" ready.

(** the message of a charted answer with preview rows and full data *)
Definition charted : Message :=
  handleSubmit_message "2" (Resolved Samples.spec_and_image).

(** an answer whose preview is an empty array beside full data *)
Definition preview_emptied : Message :=
  handleSubmit_message "4"
    (Resolved
       {| answer := "Trips per hour."; resp_sql := None;
          resp_data := Some Samples.hours; resp_data_preview := Some [];
          resp_chart := None; resp_chart_image_url := None;
          resp_sources := None; resp_mode := sql; resp_cached := None |}).

(** rows by weekday, for two companies *)
Definition weekdays : list row :=
  [ [("x", VStr "Tue"); ("s", VStr "Uber"); ("y", VNum 7%Z)];
    [("x", VStr "Mon"); ("s", VStr "Lyft"); ("y", VNum 3%Z)];
    [("x", VStr "Tue"); ("s", VStr "Lyft"); ("y", VNum 4%Z)] ].

(** a charted answer that carries preview rows but no full data *)
Definition preview_only : Message :=
  handleSubmit_message "6"
    (Resolved
       {| answer := "Trips per hour."; resp_sql := None;
          resp_data := None; resp_data_preview := Some Samples.hours;
          resp_chart := Some Samples.plain; resp_chart_image_url := None;
          resp_sources := None; resp_mode := sql; resp_cached := None |}).

(** a later row with a column of its own *)
Definition narrow : row := [("zone", VStr "JFK")].
Definition wider : row := Obj.set [("zone", VStr "LGA")] "trips" (VNum 9%Z).

End ChatSamples.

(* ================================================================== *)
(** * Part II: properties                                              *)
(* ================================================================== *)

(** ** Objects *)

Section ObjFacts.

Context {A : Type}.
Implicit Types (o : jsobject A) (k : string) (v : A).

Lemma get_set o k v k' :
  Obj.get (Obj.set o k v) k' = if String.eqb k' k then Some v else Obj.get o k'.
Proof.
  induction o as [|[k0 v0] o IH]; simpl.
  - reflexivity.
  - destruct (String.eqb_spec k k0) as [->|Hk]; simpl.
    + destruct (String.eqb_spec k' k0); reflexivity.
    + rewrite IH.
      destruct (String.eqb_spec k' k0) as [->|]; [|reflexivity].
      destruct (String.eqb_spec k0 k); congruence.
Qed.

Lemma get_set_same o k v : Obj.get (Obj.set o k v) k = Some v.
Proof. rewrite get_set, String.eqb_refl. reflexivity. Qed.

Lemma get_set_other o k v k' :
  k' <> k -> Obj.get (Obj.set o k v) k' = Obj.get o k'.
Proof.
  intros H. rewrite get_set.
  destruct (String.eqb_spec k' k); [contradiction | reflexivity].
Qed.

Lemma get_In o k v : Obj.get o k = Some v -> In (k, v) o.
Proof.
  induction o as [|[k0 v0] o IH]; simpl; [discriminate|].
  destruct (String.eqb_spec k k0) as [->|]; intros H.
  - left. congruence.
  - right. auto.
Qed.

Lemma get_None_notin o k : Obj.get o k = None <-> ~ In k (map fst o).
Proof.
  induction o as [|[k0 v0] o IH]; simpl.
  - tauto.
  - destruct (String.eqb_spec k k0) as [->|Hne].
    + split; [discriminate | intros H; exfalso; apply H; now left].
    + rewrite IH. split.
      * intros H [E|I]; [congruence | contradiction].
      * intros H I. apply H. now right.
Qed.

Lemma In_get o k v : NoDup (map fst o) -> In (k, v) o -> Obj.get o k = Some v.
Proof.
  induction o as [|[k0 v0] o IH]; simpl; [contradiction|].
  intros Hnd [E|I].
  - inversion E; subst. rewrite String.eqb_refl. reflexivity.
  - inversion Hnd as [|? ? Hnot Hnd']; subst.
    destruct (String.eqb_spec k k0) as [->|]; [|auto].
    exfalso. apply Hnot. change k0 with (fst (k0, v)). now apply in_map.
Qed.

Lemma keys_set o k v :
  map fst (Obj.set o k v)
  = match Obj.get o k with
    | Some _ => map fst o
    | None => map fst o ++ [k]
    end.
Proof.
  induction o as [|[k0 v0] o IH]; simpl; [reflexivity|].
  destruct (String.eqb_spec k k0) as [->|]; simpl; [reflexivity|].
  rewrite IH. destruct (Obj.get o k); reflexivity.
Qed.

Lemma NoDup_keys_set o k v :
  NoDup (map fst o) -> NoDup (map fst (Obj.set o k v)).
Proof.
  intros H. rewrite keys_set.
  destruct (Obj.get o k) eqn:E; [assumption|].
  apply get_None_notin in E.
  apply NoDup_app; [assumption | repeat constructor; simpl; tauto |].
  intros x Hx [<-|[]]. contradiction.
Qed.

Lemma get_map_values {B : Type} (f : A -> B) o k :
  Obj.get (Obj.map_values f o) k = option_map f (Obj.get o k).
Proof.
  induction o as [|[k0 v0] o IH]; simpl; [reflexivity|].
  destruct (String.eqb k k0); [reflexivity | exact IH].
Qed.

Lemma keys_map_values {B : Type} (f : A -> B) o :
  map fst (Obj.map_values f o) = map fst o.
Proof. unfold Obj.map_values. rewrite map_map. reflexivity. Qed.

Lemma lookup_Own o k v : Obj.get o k = Some v -> Obj.lookup o k = Obj.Own v.
Proof. unfold Obj.lookup. now intros ->. Qed.

Lemma lookup_Missing o k :
  Obj.get o k = None -> Obj.inherited k = false -> Obj.lookup o k = Obj.Missing.
Proof. unfold Obj.lookup. now intros -> ->. Qed.

Lemma lookup_Member o k :
  Obj.get o k = None -> Obj.inherited k = true -> Obj.lookup o k = Obj.Member.
Proof. unfold Obj.lookup. now intros -> ->. Qed.

(** *** Enumeration is a rearrangement of the own properties *)

Lemma insert_index_perm (e : N * (string * A)) l :
  Permutation (Obj.insert_index e l) (e :: l).
Proof.
  induction l as [|e' l IH]; simpl; [reflexivity|].
  destruct (N.leb (fst e) (fst e')); [reflexivity|].
  rewrite IH. apply perm_swap.
Qed.

Lemma entries_perm o : Permutation (Obj.entries o) o.
Proof.
  unfold Obj.entries, Obj.named_entries.
  induction o as [|[k v] o IH]; simpl; [reflexivity|].
  destruct (Obj.array_index k) as [i|] eqn:E; simpl.
  - rewrite insert_index_perm. simpl. now apply perm_skip.
  - symmetry. apply Permutation_cons_app. now symmetry.
Qed.

(** Without array-index keys the enumeration is the insertion order. *)
Lemma entries_insertion_order o :
  Forall (fun k => Obj.array_index k = None) (map fst o) -> Obj.entries o = o.
Proof.
  unfold Obj.entries, Obj.named_entries. intros H.
  assert (Hi : Obj.index_entries o = []).
  { induction o as [|[k v] o IH]; simpl; [reflexivity|].
    apply Forall_cons_iff in H. destruct H as [Hk H].
    simpl in Hk. rewrite Hk. now apply IH. }
  rewrite Hi. simpl.
  induction o as [|[k v] o IH]; simpl; [reflexivity|].
  apply Forall_cons_iff in H. destruct H as [Hk H].
  simpl in Hk, Hi. rewrite Hk in *. f_equal. now apply IH.
Qed.

Lemma values_perm o : Permutation (Obj.values o) (map snd o).
Proof. unfold Obj.values. apply Permutation_map, entries_perm. Qed.

Lemma keys_perm o : Permutation (Obj.keys o) (map fst o).
Proof. unfold Obj.keys. apply Permutation_map, entries_perm. Qed.

End ObjFacts.

(** ** Sorting with a consistent comparator *)

Section SortFacts.

Context {A : Type}.
Variable le : A -> A -> bool.

Lemma insert_perm a l : Permutation (Arr.insert le a l) (a :: l).
Proof.
  induction l as [|b l IH]; simpl; [reflexivity|].
  destruct (le a b); [reflexivity|].
  rewrite IH. apply perm_swap.
Qed.

Lemma sort_perm l : Permutation (Arr.sort le l) l.
Proof.
  induction l as [|a l IH]; simpl; [reflexivity|].
  rewrite insert_perm. now apply perm_skip.
Qed.

(** Nothing moves when every element already compares below every other. *)
Lemma sort_flat l :
  (forall a b, In a l -> In b l -> le a b = true) -> Arr.sort le l = l.
Proof.
  induction l as [|a l IH]; intros H; simpl; [reflexivity|].
  rewrite IH by (intros; apply H; now right).
  destruct l as [|b l]; simpl; [reflexivity|].
  rewrite (H a b); [reflexivity | now left | right; now left].
Qed.

Hypothesis le_total : forall a b, le a b = true \/ le b a = true.

Lemma insert_sorted a l :
  Sorted (fun x y => le x y = true) l ->
  Sorted (fun x y => le x y = true) (Arr.insert le a l).
Proof.
  induction l as [|b l IH]; intros Hs; simpl.
  - repeat constructor.
  - destruct (le a b) eqn:E.
    + constructor; [assumption | constructor; assumption].
    + inversion Hs as [|? ? Hs' Hhd]; subst.
      constructor; [auto|].
      destruct l as [|c l]; simpl.
      * constructor. destruct (le_total a b); congruence.
      * destruct (le a c); constructor.
        -- destruct (le_total a b); congruence.
        -- now inversion Hhd.
Qed.

Lemma sort_sorted l : Sorted (fun x y => le x y = true) (Arr.sort le l).
Proof.
  induction l as [|a l IH]; simpl; [constructor | now apply insert_sorted].
Qed.

Hypothesis le_trans :
  forall a b c, le a b = true -> le b c = true -> le a c = true.

Lemma insert_filter_same c a l :
  Forall (fun b => Arr.same le c b = true -> Arr.same le c a = true ->
                   le a b = true) l ->
  filter (Arr.same le c) (Arr.insert le a l) = filter (Arr.same le c) (a :: l).
Proof.
  induction l as [|b l IH]; intros HF; simpl; [reflexivity|].
  apply Forall_cons_iff in HF. destruct HF as [Hb HF'].
  destruct (le a b) eqn:E; simpl; [reflexivity|].
  rewrite (IH HF'). simpl.
  destruct (Arr.same le c b) eqn:Sb, (Arr.same le c a) eqn:Sa; try reflexivity.
  specialize (Hb eq_refl eq_refl). congruence.
Qed.

(** The sort is stable: elements that compare equal keep their order. *)
Lemma sort_stable c l :
  filter (Arr.same le c) (Arr.sort le l) = filter (Arr.same le c) l.
Proof.
  induction l as [|a l IH]; simpl; [reflexivity|].
  rewrite insert_filter_same.
  - simpl. now rewrite IH.
  - apply Forall_forall. intros b _ Sb Sa. unfold Arr.same in *.
    apply andb_prop in Sb, Sa. destruct Sb, Sa. eauto.
Qed.

End SortFacts.

(** ** The series pivot of [ChartRenderer] *)

Section PivotFacts.

Context {JSN : JSNumber}.
Variable config : chart_spec.
Variable series : string.
(** the series values the groups are initialised with *)
Variable sv : list string.

Import ChartRenderer.

Local Abbreviation grouped_after l := (fold_left (group_row config series sv) l []).

Lemma own_assign (g : group) (k : string) (v : value) :
  k <> "__proto__" -> own (assign g k v) = Obj.set (own g) k v.
Proof.
  intros Hk. unfold assign.
  destruct (String.eqb_spec k "__proto__") as [E|_]; [contradiction|].
  reflexivity.
Qed.

Lemma own_fold_assign (z : value) (l : list string) (g : group) :
  ~ In "__proto__" l ->
  own (fold_left (fun g s => assign g s z) l g)
  = fold_left (fun o s => Obj.set o s z) l (own g).
Proof.
  revert g. induction l as [|s l IH]; intros g Hl; simpl; [reflexivity|].
  rewrite IH by (intros H; apply Hl; now right).
  rewrite own_assign; [reflexivity|].
  intros ->. apply Hl. now left.
Qed.

Lemma get_fold_set (z : value) (l : list string) (o : row) (k : string) :
  Obj.get (fold_left (fun o s => Obj.set o s z) l o) k
  = if existsb (String.eqb k) l then Some z else Obj.get o k.
Proof.
  revert o. induction l as [|s l IH]; intros o; simpl; [reflexivity|].
  rewrite IH, get_set.
  destruct (String.eqb k s); simpl; [|reflexivity].
  destruct (existsb (String.eqb k) l); reflexivity.
Qed.

Lemma get_fresh_group (x s : string) :
  ~ In "__proto__" sv ->
  Obj.get (own (fresh_group config sv x)) s
  = if existsb (String.eqb s) sv then Some (VNum num_zero)
    else if String.eqb s (x_key config) then Some (VStr x) else None.
Proof.
  intros Hsv. unfold fresh_group.
  rewrite own_fold_assign by assumption. rewrite get_fold_set. reflexivity.
Qed.

(** The body of the loop, by what the test finds. *)
Lemma group_row_group (g : jsobject group) (r : row) (o : group) :
  Obj.get g (xValue_of config r) = Some o ->
  group_row config series sv g r
  = Obj.set g (xValue_of config r)
            (assign o (seriesValue_of series r) (prop r (y_key config))).
Proof.
  intros E. unfold group_row.
  fold (xValue_of config r) (seriesValue_of series r).
  rewrite (lookup_Own _ _ _ E). cbv zeta. rewrite (lookup_Own _ _ _ E).
  reflexivity.
Qed.

Lemma group_row_new (g : jsobject group) (r : row) :
  Obj.get g (xValue_of config r) = None ->
  Obj.inherited (xValue_of config r) = false ->
  group_row config series sv g r
  = Obj.set (Obj.set g (xValue_of config r)
                     (fresh_group config sv (xValue_of config r)))
            (xValue_of config r)
            (assign (fresh_group config sv (xValue_of config r))
                    (seriesValue_of series r) (prop r (y_key config))).
Proof.
  intros E Hx. unfold group_row.
  fold (xValue_of config r) (seriesValue_of series r).
  rewrite (lookup_Missing _ _ E Hx). cbv zeta.
  rewrite (lookup_Own _ _ _ (get_set_same _ _ _)). reflexivity.
Qed.

(** An x value that names a member of the prototype leaves the table as
    it is. *)
Lemma group_row_member (g : jsobject group) (r : row) :
  Obj.get g (xValue_of config r) = None ->
  Obj.inherited (xValue_of config r) = true ->
  group_row config series sv g r = g.
Proof.
  intros E Hx. unfold group_row.
  fold (xValue_of config r) (seriesValue_of series r).
  rewrite (lookup_Member _ _ E Hx). cbv zeta.
  rewrite (lookup_Member _ _ E Hx). reflexivity.
Qed.

Lemma get_group_row (g : jsobject group) (r : row) (x : string) :
  Obj.inherited (xValue_of config r) = false ->
  Obj.get (group_row config series sv g r) x
  = if String.eqb x (xValue_of config r)
    then Some (assign (match Obj.get g (xValue_of config r) with
                       | Some o => o
                       | None => fresh_group config sv (xValue_of config r)
                       end)
                      (seriesValue_of series r) (prop r (y_key config)))
    else Obj.get g x.
Proof.
  intros Hx.
  destruct (Obj.get g (xValue_of config r)) as [o|] eqn:E.
  - rewrite (group_row_group g r o E), get_set. reflexivity.
  - rewrite (group_row_new g r E Hx), !get_set.
    destruct (String.eqb x (xValue_of config r)); reflexivity.
Qed.

Lemma keys_group_row (g : jsobject group) (r : row) :
  map fst (group_row config series sv g r)
  = match Obj.lookup g (xValue_of config r) with
    | Obj.Missing => map fst g ++ [xValue_of config r]
    | _ => map fst g
    end.
Proof.
  unfold Obj.lookup.
  destruct (Obj.get g (xValue_of config r)) as [o|] eqn:E.
  - rewrite (group_row_group g r o E), keys_set, E. reflexivity.
  - destruct (Obj.inherited (xValue_of config r)) eqn:Hx.
    + now rewrite (group_row_member g r E Hx).
    + rewrite (group_row_new g r E Hx), !keys_set, get_set_same, E.
      reflexivity.
Qed.

Lemma grouped_NoDup (data : list row) : NoDup (map fst (grouped_after data)).
Proof.
  induction data as [|r data IH] using rev_ind; simpl; [constructor|].
  rewrite fold_left_app. simpl. rewrite keys_group_row. unfold Obj.lookup.
  destruct (Obj.get _ (xValue_of config r)) eqn:E; [assumption|].
  destruct (Obj.inherited (xValue_of config r)); [assumption|].
  apply get_None_notin in E.
  apply NoDup_app; [assumption | repeat constructor; simpl; tauto |].
  intros k Hk [<-|[]]. contradiction.
Qed.

(** No key of the table names a member of the prototype. *)
Lemma grouped_keys_own (data : list row) (x : string) :
  Obj.inherited x = true -> Obj.get (grouped_after data) x = None.
Proof.
  intros Hx.
  induction data as [|r data IH] using rev_ind; simpl; [reflexivity|].
  rewrite fold_left_app. simpl.
  destruct (Obj.inherited (xValue_of config r)) eqn:Hr.
  - destruct (Obj.get (grouped_after data) (xValue_of config r)) as [o|] eqn:E.
    + rewrite (group_row_group _ r o E), get_set.
      destruct (String.eqb_spec x (xValue_of config r)) as [->|]; congruence.
    + now rewrite (group_row_member _ r E Hr).
  - rewrite get_group_row by assumption.
    destruct (String.eqb_spec x (xValue_of config r)) as [->|]; congruence.
Qed.

(** A group exists exactly for the x values seen so far. *)
Lemma group_exists (data : list row) (x : string) :
  Forall (fun r => Obj.inherited (xValue_of config r) = false) data ->
  Obj.get (grouped_after data) x = None <-> x_observed config x data = false.
Proof.
  induction data as [|r data IH] using rev_ind; intros HF; simpl; [tauto|].
  apply Forall_app in HF. destruct HF as [HF Hr].
  apply Forall_cons_iff in Hr. destruct Hr as [Hr _].
  rewrite fold_left_app. simpl. rewrite get_group_row by assumption.
  unfold x_observed in *. rewrite existsb_app. simpl.
  rewrite (String.eqb_sym (xValue_of config r) x).
  destruct (String.eqb x (xValue_of config r)); simpl.
  - rewrite orb_true_r. split; discriminate.
  - rewrite !orb_false_r. exact (IH HF).
Qed.

(** Every cell of the table, in closed form: the y value of the last row
    filed under it, else what the group was initialised with. *)
Lemma cell_grouped (data : list row) (x s : string) :
  ~ In "__proto__" sv ->
  Forall (files_plainly config series) data ->
  cell (Obj.map_values own (grouped_after data)) x s
  = match last_row config series x s data with
    | Some r => Some (prop r (y_key config))
    | None =>
        if x_observed config x data
        then Obj.get (own (fresh_group config sv x)) s
        else None
    end.
Proof.
  intros Hsv.
  induction data as [|r data IH] using rev_ind; intros HF; simpl;
    [reflexivity|].
  apply Forall_app in HF. destruct HF as [HF Hr].
  apply Forall_cons_iff in Hr. destruct Hr as [[Hrx Hrs] _].
  specialize (IH HF).
  assert (HFx : Forall (fun r => Obj.inherited (xValue_of config r) = false)
                       data).
  { eapply Forall_impl; [|exact HF]. now intros a [Ha _]. }
  unfold last_row, x_observed in *.
  rewrite fold_left_app, rev_app_distr, existsb_app. simpl.
  unfold cell in *. rewrite get_map_values in *.
  rewrite get_group_row by assumption. unfold files_under at 1.
  rewrite (String.eqb_sym (xValue_of config r) x).
  destruct (String.eqb_spec x (xValue_of config r)) as [->|Hx]; simpl.
  - rewrite own_assign by assumption.
    rewrite get_set, (String.eqb_sym (seriesValue_of series r) s).
    destruct (String.eqb s (seriesValue_of series r)); [reflexivity|].
    rewrite orb_true_r.
    destruct (Obj.get (grouped_after data) (xValue_of config r)) as [o|] eqn:E.
    + simpl in IH. rewrite IH.
      destruct (find _ (rev data)); [reflexivity|].
      destruct (existsb _ data) eqn:Ex; [reflexivity|].
      apply (group_exists data _ HFx) in Ex. congruence.
    + simpl in IH. destruct (find _ (rev data)); [discriminate | reflexivity].
  - rewrite orb_false_r. exact IH.
Qed.

(** The groups stand in the order in which their x values were first seen. *)
Lemma grouped_keys_from (data : list row) (g : jsobject group)
      (seen : list string) :
  Forall (fun r => Obj.inherited (xValue_of config r) = false) data ->
  (forall k, existsb (String.eqb k) seen = Obj.has g k) ->
  map fst (fold_left (group_row config series sv) data g)
  = map fst g ++ Arr.unique_from seen (map (xValue_of config) data).
Proof.
  revert g seen.
  induction data as [|r data IH]; intros g seen HF Hseen; simpl.
  - now rewrite app_nil_r.
  - apply Forall_cons_iff in HF. destruct HF as [Hr HF].
    pose proof (keys_group_row g r) as K. unfold Obj.lookup in K.
    rewrite Hr in K.
    pose proof (Hseen (xValue_of config r)) as Hx. unfold Obj.has in Hx.
    destruct (Obj.get g (xValue_of config r)) as [o|] eqn:E; rewrite Hx.
    + rewrite (IH _ seen), K; [reflexivity | assumption |].
      intros k. rewrite Hseen. unfold Obj.has.
      rewrite get_group_row by assumption.
      destruct (String.eqb_spec k (xValue_of config r)) as [->|]; [|reflexivity].
      now rewrite E.
    + rewrite (IH _ (xValue_of config r :: seen)), K.
      * now rewrite <- app_assoc.
      * assumption.
      * intros k. simpl. rewrite Hseen. unfold Obj.has.
        rewrite get_group_row by assumption.
        destruct (String.eqb k (xValue_of config r)); reflexivity.
Qed.

Lemma grouped_keys_first_seen (data : list row) :
  Forall (fun r => Obj.inherited (xValue_of config r) = false) data ->
  map fst (grouped_after data) = Arr.unique (map (xValue_of config) data).
Proof. intros HF. now rewrite (grouped_keys_from data [] [] HF). Qed.

End PivotFacts.

Section ChartDataFacts.

Context {JSN : JSNumber}.

Import ChartRenderer.

Lemma unique_from_In (s : string) (l seen : list string) :
  In s (Arr.unique_from seen l)
  <-> In s l /\ existsb (String.eqb s) seen = false.
Proof.
  revert seen. induction l as [|h l IH]; intros seen; simpl; [tauto|].
  destruct (existsb (String.eqb h) seen) eqn:E.
  - rewrite IH. split; [tauto|].
    intros [[->|Hl] Hs]; [congruence | tauto].
  - simpl. rewrite IH. simpl.
    destruct (String.eqb_spec s h) as [->|Hne]; simpl.
    + split; [intros _; split; [now left | assumption] | now left].
    + split.
      * intros [->|[? ?]]; [contradiction | tauto].
      * intros [[->|Hl] Hs]; [contradiction | tauto].
Qed.

Lemma unique_In (s : string) (l : list string) : In s (Arr.unique l) <-> In s l.
Proof. unfold Arr.unique. rewrite unique_from_In. simpl. tauto. Qed.

Lemma existsb_eqb_In (s : string) (l : list string) :
  existsb (String.eqb s) l = true <-> In s l.
Proof.
  rewrite existsb_exists. split.
  - intros [y [Hy E]]. apply String.eqb_eq in E. now subst.
  - intros H. exists s. split; [assumption | apply String.eqb_refl].
Qed.

Lemma find_all_false {A : Type} (f : A -> bool) (l : list A) :
  (forall a, In a l -> f a = false) -> find f l = None.
Proof.
  induction l as [|a l IH]; intros H; simpl; [reflexivity|].
  rewrite (H a) by now left. apply IH. intros; apply H. now right.
Qed.

Lemma x_observed_In (config : chart_spec) (x : string) (data : list row) :
  x_observed config x data = true
  <-> exists r, In r data /\ xValue_of config r = x.
Proof.
  unfold x_observed. rewrite existsb_exists.
  split; intros [r [Hr E]]; exists r; (split; [assumption|]).
  - now apply String.eqb_eq.
  - now apply String.eqb_eq.
Qed.

Lemma x_le_total (config : chart_spec) (a b : row) :
  x_le config a b = true \/ x_le config b a = true.
Proof. apply num_leb_total. Qed.

Lemma x_le_trans (config : chart_spec) (a b c : row) :
  x_le config a b = true -> x_le config b c = true -> x_le config a c = true.
Proof. apply num_leb_trans. Qed.

(** With a series column, the rows of the chart are the groups of the pivot
    table, rearranged. *)
Lemma chartData_groups (config : chart_spec) (series : string) (data : list row) :
  truthy (chart_series config) = Some series ->
  Permutation (chartData config data) (map snd (pivot config series data)).
Proof.
  intros H. unfold chartData, unsorted. rewrite H.
  rewrite sort_perm. apply values_perm.
Qed.

(** What [own_names] says of the rows, with a series column. *)
Lemma own_names_rows (config : chart_spec) (series : string) (data : list row) :
  truthy (chart_series config) = Some series ->
  own_names config data = true ->
  Forall (fun r => Obj.inherited (xValue_of config r) = false
                   /\ Obj.inherited (seriesValue_of series r) = false) data.
Proof.
  intros Hs H. unfold own_names, names_used in H. rewrite Hs in H.
  rewrite forallb_forall in H.
  apply Forall_forall. intros r Hr. split.
  - apply negb_true_iff, H. right. right. right.
    apply in_or_app. left. now apply in_map.
  - apply negb_true_iff, H. right. right. right.
    apply in_or_app. right. now apply in_map.
Qed.

Lemma own_names_plainly (config : chart_spec) (series : string)
      (data : list row) :
  truthy (chart_series config) = Some series ->
  own_names config data = true ->
  Forall (files_plainly config series) data
  /\ Forall (fun r => Obj.inherited (xValue_of config r) = false) data
  /\ ~ In "__proto__" (seriesValues series data).
Proof.
  intros Hs H. pose proof (own_names_rows config series data Hs H) as HF.
  split; [|split].
  - eapply Forall_impl; [|exact HF]. intros r [Hx Hv]. split; [exact Hx|].
    intros E. rewrite E in Hv. discriminate.
  - eapply Forall_impl; [|exact HF]. now intros r [Hx _].
  - intros Hin. apply unique_In, in_map_iff in Hin.
    destruct Hin as [r [E Hr]].
    rewrite Forall_forall in HF. destruct (HF r Hr) as [_ Hv].
    unfold seriesValue_of in Hv. rewrite E in Hv. discriminate.
Qed.

(** With bare column names the x and y values of the specification are the
    ones the code reads. *)
Lemma bare_axes_keys (config : chart_spec) :
  bare_axes config = true ->
  x_key config = column_of (chart_x config)
  /\ y_key config = column_of (chart_y config).
Proof.
  unfold bare_axes, x_key, y_key.
  destruct (chart_x config), (chart_y config); try discriminate.
  split; reflexivity.
Qed.

Lemma bare_axes_last (config : chart_spec) (series x s : string)
      (data : list row) :
  bare_axes config = true ->
  last_observed config series x s data = last_row config series x s data.
Proof.
  intros Hb. destruct (bare_axes_keys config Hb) as [Hx _].
  unfold last_observed, last_row, files_under, observed_x, xValue_of.
  now rewrite Hx.
Qed.

(** With x values none of which is an array index, the rows handed to the
    sort stand in the order in which their x values were first seen. *)
Lemma unsorted_first_seen (config : chart_spec) (series : string)
      (data : list row) :
  truthy (chart_series config) = Some series ->
  Forall (fun r => Obj.inherited (xValue_of config r) = false) data ->
  Forall (fun r => Obj.array_index (xValue_of config r) = None) data ->
  unsorted config data = map snd (pivot config series data).
Proof.
  intros Hs Hown Hx. unfold unsorted. rewrite Hs. unfold Obj.values.
  rewrite entries_insertion_order; [reflexivity|].
  unfold pivot, groups. rewrite keys_map_values.
  rewrite grouped_keys_first_seen by assumption.
  apply Forall_forall. intros k Hk.
  apply unique_In, in_map_iff in Hk. destruct Hk as [r [<- Hr]].
  revert r Hr. now apply Forall_forall.
Qed.

(** C1, for a chart whose axes are bare column names.  With a series
    column, and as long as no column name, x value or series value of the
    data is a name of [Object.prototype], the pivoted cell for an x value and
    a series value holds the y value of the last input row having that x
    value and that series value: duplicates are resolved last-row-wins.  The
    cell is the one of the output row of that x value. *)
Theorem pivot_last_row_wins
  (config : chart_spec) (series : string) (data : list row)
  (x s : string) (r : row) :
  bare_axes config = true ->
  truthy (chart_series config) = Some series ->
  own_names config data = true ->
  last_observed config series x s data = Some r ->
  exists o,
    Obj.get (pivot config series data) x = Some o
    /\ In o (chartData config data)
    /\ Obj.get o s = Some (observed_y config r).
Proof.
  intros Hb Hs Hown Hlast.
  rewrite (bare_axes_last config series x s data Hb) in Hlast.
  destruct (bare_axes_keys config Hb) as [_ Hy].
  destruct (own_names_plainly config series data Hs Hown) as (Hp & _ & Hsv).
  pose proof (cell_grouped config series (seriesValues series data) data x s
                           Hsv Hp) as Hcell.
  rewrite Hlast in Hcell. unfold cell in Hcell.
  fold (groups config series data) in Hcell.
  fold (pivot config series data) in Hcell.
  destruct (Obj.get (pivot config series data) x) as [o|] eqn:E; [|discriminate].
  exists o. split; [reflexivity|]. split.
  - apply (Permutation_in _ (Permutation_sym (chartData_groups config series data Hs))).
    apply get_In in E. change o with (snd (x, o)). now apply in_map.
  - unfold observed_y. rewrite <- Hy. exact Hcell.
Qed.

(** C2, for a chart whose axes are bare column names.  With a series
    column, and as long as no column name, x value or series value of the
    data is a name of [Object.prototype], the output rows are the groups of
    the pivot table, one for each distinct x value observed, in the order of
    first appearance before the sort; every output row has an entry for
    every series value observed anywhere in the input; and a pair of an
    observed x value and an observed series value that no input row has
    holds zero. *)
Theorem pivot_zero_fill
  (config : chart_spec) (series : string) (data : list row) :
  bare_axes config = true ->
  truthy (chart_series config) = Some series ->
  own_names config data = true ->
  let grouped := pivot config series data in
  Permutation (chartData config data) (map snd grouped)
  /\ map fst grouped = Arr.unique (map (observed_x config) data)
  /\ NoDup (map fst grouped)
  /\ (forall x, In x (map fst grouped)
                <-> exists r, In r data /\ observed_x config r = x)
  /\ (forall o s,
         In o (chartData config data) ->
         (exists r, In r data /\ seriesValue_of series r = s) ->
         exists v, Obj.get o s = Some v)
  /\ (forall x s,
         (exists r, In r data /\ observed_x config r = x) ->
         (exists r, In r data /\ seriesValue_of series r = s) ->
         (forall r, In r data ->
                    observed_x config r = x -> seriesValue_of series r <> s) ->
         cell grouped x s = Some (VNum num_zero)).
Proof.
  intros Hb Hs Hown grouped.
  destruct (bare_axes_keys config Hb) as [Hxk _].
  assert (Hobs : forall r, observed_x config r = xValue_of config r).
  { intros r. unfold observed_x, xValue_of. now rewrite Hxk. }
  destruct (own_names_plainly config series data Hs Hown) as (Hp & Hx & Hsv).
  assert (Hnd : NoDup (map fst grouped)).
  { unfold grouped, pivot, groups. rewrite keys_map_values.
    apply grouped_NoDup. }
  assert (Hkeys : forall x, In x (map fst grouped)
                            <-> exists r, In r data /\ observed_x config r = x).
  { intros x.
    assert (Hex : (exists r, In r data /\ observed_x config r = x)
                  <-> x_observed config x data = true).
    { rewrite x_observed_In.
      split; intros [r [Hr E]]; exists r; (split; [assumption|]);
        rewrite Hobs in *; exact E. }
    rewrite Hex.
    pose proof (group_exists config series (seriesValues series data) data x Hx)
      as G.
    fold (groups config series data) in G.
    unfold grouped, pivot. rewrite keys_map_values.
    pose proof (get_None_notin (groups config series data) x) as N.
    destruct (x_observed config x data),
             (Obj.get (groups config series data) x) eqn:E.
    - split; [reflexivity|]. intros _.
      apply get_In in E. change x with (fst (x, g)). now apply in_map.
    - destruct G as [G _]. specialize (G eq_refl). discriminate.
    - destruct G as [_ G]. specialize (G eq_refl). discriminate.
    - split; [|discriminate]. intros I. destruct N as [N _]. now elim (N eq_refl). }
  assert (Hser : forall s, (exists r, In r data /\ seriesValue_of series r = s)
                           -> existsb (String.eqb s) (seriesValues series data) = true).
  { intros s [r [Hr E]]. apply existsb_eqb_In, unique_In, in_map_iff.
    exists r. split; assumption. }
  assert (Hcell : forall x s, In x (map fst grouped) ->
                              (exists r, In r data /\ seriesValue_of series r = s) ->
                              exists v, cell grouped x s = Some v).
  { intros x s Hin Hs'. unfold grouped, pivot, groups.
    rewrite cell_grouped by assumption.
    destruct (last_row config series x s data); [eauto|].
    apply Hkeys in Hin. destruct Hin as [r [Hr E]]. rewrite Hobs in E.
    assert (Ho : x_observed config x data = true)
      by (apply x_observed_In; eauto).
    rewrite Ho, get_fresh_group by assumption. rewrite (Hser s Hs'). eauto. }
  split; [now apply chartData_groups|].
  split.
  { unfold grouped, pivot, groups. rewrite keys_map_values.
    rewrite grouped_keys_first_seen by assumption.
    f_equal. apply map_ext. intros r. now rewrite Hobs. }
  split; [exact Hnd|].
  split; [exact Hkeys|].
  split.
  - intros o s Ho Hs'.
    apply (Permutation_in _ (chartData_groups config series data Hs)) in Ho.
    apply in_map_iff in Ho. destruct Ho as [[x o'] [Eo Hin]]. simpl in Eo. subst o'.
    assert (Hin' : In x (map fst grouped)).
    { change x with (fst (x, o)). now apply in_map. }
    destruct (Hcell x s Hin' Hs') as [v Hv]. exists v.
    unfold cell in Hv.
    rewrite (In_get grouped x o Hnd Hin) in Hv.
    exact Hv.
  - intros x s Hxo Hs' Hnone. unfold grouped, pivot, groups.
    rewrite cell_grouped by assumption.
    unfold last_row. rewrite find_all_false.
    + destruct Hxo as [r [Hr E]]. rewrite Hobs in E.
      assert (Ho : x_observed config x data = true)
        by (apply x_observed_In; eauto).
      rewrite Ho, get_fresh_group by assumption.
      rewrite (Hser s Hs'). reflexivity.
    + intros r Hr. apply in_rev in Hr. unfold files_under.
      destruct (String.eqb_spec (xValue_of config r) x) as [Ex|]; [|reflexivity].
      rewrite <- Hobs in Ex. apply String.eqb_neq. simpl. now apply Hnone.
Qed.

Lemma x_le_refl (config : chart_spec) (a : row) : x_le config a a = true.
Proof. destruct (x_le_total config a a); assumption. Qed.

(** C3, as the code has it.  Both branches order their rows with one stable
    sort on the key [Number(x) || 0]: the output is a rearrangement of the
    rows handed to the sort, ascending in that key, with rows of equal key
    in their incoming order; an x value that is not coercible counts as
    zero, so rows whose x values are all not coercible stay as they came.
    No sort flag is read: the flag of a descriptor object never changes the
    output. *)
Theorem chartData_order (config : chart_spec) (data : list row) :
  Permutation (chartData config data) (unsorted config data)
  /\ Sorted (fun a b => x_le config a b = true) (chartData config data)
  /\ (forall c,
         filter (Arr.same (x_le config) c) (chartData config data)
         = filter (Arr.same (x_le config) c) (unsorted config data))
  /\ ((forall r, In r (unsorted config data) ->
                 ToNumber (prop r (x_key config)) = None) ->
      chartData config data = unsorted config data)
  /\ (forall col hint flag flag',
         chart_x config = AxisObject col hint flag ->
         chartData (with_x config (AxisObject col hint flag')) data
         = chartData config data).
Proof.
  unfold chartData. repeat split.
  - apply sort_perm.
  - apply sort_sorted, x_le_total.
  - intros c. apply sort_stable; intros; eauto using x_le_total, x_le_trans.
  - intros Hnan. apply sort_flat. intros a b Ha Hb.
    unfold x_le, number_or_zero. rewrite (Hnan a Ha), (Hnan b Hb).
    destruct (num_leb_total num_zero num_zero); assumption.
  - intros col hint flag flag' Hx.
    destruct config; simpl in *; subst. reflexivity.
Qed.

(** C4, as the code has it.  The renderer tells two cases apart: kind
    [line] gives a line chart, and every other kind (bar, scatter, hist,
    box, heatmap and none alike) gives a bar chart; no kind is an error. *)
Theorem render_two_cases (config : chart_spec) (r : row) (data : list row) :
  exists v,
    render config (r :: data) = ChartContainer v
    /\ view_plot v = match chart_kind config with
                     | line => LineChart
                     | bar | scatter | hist | box | heatmap | none => BarChart
                     end.
Proof.
  eexists. split; [reflexivity|].
  simpl. destruct (chart_kind config); reflexivity.
Qed.

End ChartDataFacts.

(** *** The claims on sample inputs *)

Section ChartSamples.

Import IntegerData Samples ChartRenderer.

(** The example of the specification: the x = 1 row is {A: 7, B: 2}. *)
Example pivot_duplicates :
  chartData by_series duplicates
  = [[("x", VStr "1"); ("A", VNum 7%Z); ("B", VNum 2%Z)]].
Proof. reflexivity. Qed.

(** C1 on the example: the cell for x = 1 and series A holds 7, the y of the
    second of the two rows filed under it. *)
Lemma pivot_last_row_wins_witness :
  exists o,
    Obj.get (pivot by_series "s" duplicates) "1" = Some o
    /\ In o (chartData by_series duplicates)
    /\ Obj.get o "A" = Some (VNum 7%Z).
Proof.
  apply (pivot_last_row_wins by_series "s" duplicates "1" "A" (long_row 1 "A" 7));
    reflexivity.
Defined.

(** C1 as stated fails for a chart whose axes are descriptor objects, which
    the response type allows and the message list hands over: the
    descriptors are used as property names, so every row is filed under
    the text of [undefined] and every y reads [undefined].  On the example
    of the specification there is no row for x = 1, and the cell of series A
    does not hold 7. *)
Lemma descriptor_axes_lose_the_cell :
  truthy (chart_series described) = Some "s"
  /\ last_observed described "s" "1" "A" duplicates = Some (long_row 1 "A" 7)
  /\ observed_y described (long_row 1 "A" 7) = VNum 7%Z
  /\ Obj.get (pivot described "s" duplicates) "1" = None
  /\ chartData described duplicates
     = [[("[object Object]", VStr "undefined");
         ("A", VUndefined); ("B", VUndefined)]].
Proof. repeat split. Qed.

(** C2 on rows with a gap: x = 2 has no row for series A, and reads zero. *)
Lemma pivot_zero_fill_witness :
  cell (pivot by_series "s" gaps) "2" "A" = Some (VNum 0%Z).
Proof.
  refine (proj2 (proj2 (proj2 (proj2 (proj2
            (pivot_zero_fill by_series "s" gaps eq_refl eq_refl eq_refl)))))
            "2" "A" _ _ _).
  - exists (long_row 2 "B" 3). split; [simpl; tauto | reflexivity].
  - exists (long_row 1 "A" 5). split; [simpl; tauto | reflexivity].
  - intros r [<-|[<-|[]]] E; [discriminate E | discriminate].
Defined.

(** C2 as stated fails for a chart whose axes are descriptor objects: the
    two x values 1 and 2 are observed, but there is one output row, filed
    under the text of [undefined]; the pair of x = 2 and series A, which no
    input row has, has no cell, and the cell of series A in the only row
    holds [undefined], not zero. *)
Lemma descriptor_axes_one_group :
  truthy (chart_series described) = Some "s"
  /\ Arr.unique (map (observed_x described) gaps) = ["1"; "2"]
  /\ map fst (pivot described "s" gaps) = ["undefined"]
  /\ cell (pivot described "s" gaps) "2" "A" = None
  /\ chartData described gaps
     = [[("[object Object]", VStr "undefined");
         ("A", VUndefined); ("B", VUndefined)]].
Proof. repeat split. Qed.

(** Where the table meets [Object.prototype].  An x value that names one
    of its members gets no group, so no output row; a series value
    [__proto__] gets no entry in its row. *)
Example member_x_value_gets_no_group :
  chartData by_series [named_row "constructor" "A" 5; named_row "k" "A" 2]
  = [[("x", VStr "k"); ("A", VNum 2%Z)]]
  /\ own_names by_series [named_row "constructor" "A" 5; named_row "k" "A" 2]
     = false.
Proof. split; reflexivity. Qed.

Example proto_series_value_gets_no_entry :
  chartData by_series [named_row "k" "__proto__" 5; named_row "k" "A" 2]
  = [[("x", VStr "k"); ("A", VNum 2%Z)]]
  /\ marks by_series [named_row "k" "__proto__" 5; named_row "k" "A" 2]
     = [("__proto__", "#8884d8"); ("A", "#82ca9d")].
Proof. split; reflexivity. Qed.

(** C3 as stated fails: here the x descriptor carries [sort: true] and the
    hours are coercible, yet the rows come out in encounter order, not in
    ascending order of the hour. *)
Lemma sort_flag_not_honoured :
  sort_flag (chart_x flagged) = true
  /\ map (fun o => prop o "n") (chartData flagged hours)
     <> map (fun o => prop o "n") (ordered_by_x_column flagged hours).
Proof. split; [reflexivity | discriminate]. Qed.

(** With the bare column name the same rows are put in numeric order. *)
Example plain_column_sorted :
  map (fun o => prop o "n") (chartData plain hours) = [VNum 20%Z; VNum 10%Z].
Proof. reflexivity. Qed.

(** C4 as stated fails: kind scatter is no case of its own and no error; it
    is drawn as the bar chart that kind bar gives. *)
Lemma scatter_falls_back_to_bar :
  scatter <> bar
  /\ render (with_kind plain scatter) hours = render (with_kind plain bar) hours
  /\ exists v, render (with_kind plain scatter) hours = ChartContainer v
               /\ view_plot v = BarChart.
Proof.
  split; [discriminate|]. split; [reflexivity|].
  eexists. split; reflexivity.
Qed.

End ChartSamples.

(** ** Messages: chart outputs and error results *)

Section MessageFacts.

Context {JSN : JSNumber}.

(** C5, as the code has it.  Of the two chart outputs of a message the list
    displays at most one: the image when the image reference is present and
    not empty, with the chart title as its alternative text; otherwise the
    client-side chart when a chart specification is present; otherwise none.
    A response may carry both outputs, or neither. *)
Theorem one_chart_block (m : Message) :
  length (chart_blocks m) <= 1
  /\ chart_blocks m
     = match ChartRenderer.truthy (msg_chart_image_url m), msg_chart m with
       | Some url, _ => [ImageBlock url (image_alt m)]
       | None, Some c =>
           [RendererBlock
              (ChartRenderer.render c
                 (match msg_data m with Some d => d | None => [] end))]
       | None, None => []
       end.
Proof.
  unfold chart_blocks, image_blocks, renderer_blocks.
  destruct (ChartRenderer.truthy (msg_chart_image_url m)), (msg_chart m);
    simpl; split; (lia || reflexivity).
Qed.

(** A failure of the request gives a message whose mode is error and which
    carries the user-facing text and nothing else. *)
Lemma rejected_gives_bare_error (id err_message : string) :
  let m := handleSubmit_message id (Rejected err_message) in
  msg_mode m = Some (mode_tag error)
  /\ msg_content m
     = ("Error: " ++ or_default err_message "Failed to process your request")%string
  /\ msg_sql m = None
  /\ msg_data m = None
  /\ msg_data_preview m = None
  /\ msg_chart m = None
  /\ msg_chart_image_url m = None
  /\ msg_sources m = None
  /\ chart_blocks m = [].
Proof. simpl. repeat split. Qed.

(** A response that arrives is passed on field by field: the handler adds
    nothing to it and removes nothing. *)
Lemma response_passed_through (id : string) (response : ChatResponse) :
  let m := handleSubmit_message id (Resolved response) in
  msg_mode m = Some (mode_tag (resp_mode response))
  /\ msg_sql m = resp_sql response
  /\ msg_data m = resp_data response
  /\ msg_chart m = resp_chart response
  /\ msg_chart_image_url m = resp_chart_image_url response.
Proof. simpl. repeat split. Qed.

End MessageFacts.

Section MessageSamples.

Import IntegerData Samples.

(** C5 as stated fails: a result may carry both chart outputs, or none of
    them, as a text-only answer and the error result of the submit handler
    do. *)
Lemma chart_outputs_not_exactly_one :
  chart_outputs (handleSubmit_message "2" (Resolved spec_and_image)) = 2
  /\ chart_outputs (handleSubmit_message "2" (Resolved text_only)) = 0
  /\ chart_outputs (handleSubmit_message "2" (Rejected "Server error")) = 0.
Proof. repeat split. Qed.

(** When both are populated the image is displayed and the client-side
    chart is not. *)
Example image_wins :
  chart_blocks (handleSubmit_message "2" (Resolved spec_and_image))
  = [ImageBlock "/static/charts/1.png" "Chart"].
Proof. reflexivity. Qed.

End MessageSamples.

(** ** The data preview *)

Section PreviewFacts.

Context {JSN : JSNumber}.

(** The stand-alone component shows nothing when the request fails, when
    the status is not ok, and when the body reports an error. *)
Lemma DataPreview_hides_failures (o : fetch_outcome) :
  match o with
  | FetchThrows m => m <> ""
  | FetchStatus false _ => True
  | FetchStatus true body =>
      exists e, preview_error body = Some e /\ e <> ""
  end ->
  DataPreview.render (DataPreview.fetchPreview o DataPreview.initial)
  = NoPreview.
Proof.
  destruct o as [m|[|] body]; simpl.
  - intros H. unfold DataPreview.render. simpl.
    destruct m; [congruence | reflexivity].
  - intros [e [He Hne]]. unfold DataPreview.render. simpl.
    rewrite He. simpl. destruct e; [congruence | reflexivity].
  - reflexivity.
Qed.

(** In the chat, a request that fails or whose status is not ok leaves no
    preview, and the chat's own error banner is never touched. *)
Lemma ChatPreview_ignores_transport_failures (o : fetch_outcome) :
  match o with FetchStatus true _ => False | _ => True end ->
  ChatPreview.render (ChatPreview.fetchPreview o ChatPreview.initial) = NoPreview
  /\ ChatPreview.chat_error (ChatPreview.fetchPreview o ChatPreview.initial)
     = "".
Proof. destruct o as [m|[|] body]; simpl; intros H; [auto | elim H | auto]. Qed.

(** On the chat's path a body delivered with an ok status is stored and
    offered as a preview whatever it holds, an error report included. *)
Lemma ChatPreview_offers_any_body (body : PreviewData) :
  ChatPreview.render
    (ChatPreview.fetchPreview (FetchStatus true body) ChatPreview.initial)
  = PreviewToggle false None.
Proof. reflexivity. Qed.

End PreviewFacts.

Section PreviewSamples.

Import IntegerData Samples.

(** C7 where it fails.  The same error report, delivered with an ok status,
    through both consumers: the stand-alone component shows nothing; the
    chat offers the preview toggle, and opening it shows an empty table
    with its note. *)
Example failed_preview_both_paths :
  DataPreview.render
    (DataPreview.fetchPreview (FetchStatus true failed_preview)
                              DataPreview.initial)
  = NoPreview
  /\ ChatPreview.render
       (ChatPreview.fetchPreview (FetchStatus true failed_preview)
                                 ChatPreview.initial)
     = PreviewToggle false None
  /\ panel true failed_preview
     = PreviewToggle true
         (Some {| table_head := []; table_body := []; table_note := 0 |}).
Proof. repeat split. Qed.

End PreviewSamples.

(** ** Generation loops: bounded attempts and termination *)

Section GenerationFacts.

Import GenerationLoop.

Context {prompt raw artifact reason : Type}.
Variable build_prompt : list reason -> prompt.
Variable provider : nat -> prompt -> generation (raw := raw) (reason := reason).
Variable validate : raw -> verdict (artifact := artifact) (reason := reason).
Variable max_attempts : nat.

Local Abbreviation machine_state := (state (prompt := prompt) (raw := raw)
  (artifact := artifact) (reason := reason)).
Local Abbreviation next := (step build_prompt provider validate max_attempts).
Local Abbreviation run_for := (run build_prompt provider validate max_attempts).
Local Abbreviation ok := (within_budget max_attempts).
Local Abbreviation left := (steps_left max_attempts).

Hypothesis budget : 1 <= max_attempts.

Lemma initial_within_budget : ok (initial : machine_state).
Proof. unfold within_budget. simpl. auto. Qed.

Lemma step_within_budget (s : machine_state) : ok s -> ok (next s).
Proof.
  destruct s as [ph a c]. unfold within_budget, step. simpl.
  destruct ph as [|p|[t|r]|t|a'|f|f]; simpl; try lia.
  - destruct (validate t); simpl; lia.
  - destruct (Nat.ltb_spec a max_attempts); simpl; lia.
Qed.

Lemma step_decreases (s : machine_state) :
  ok s -> terminal s = false -> left (next s) < left s.
Proof.
  destruct s as [ph a c]. unfold within_budget, steps_left, step, terminal. simpl.
  destruct ph as [|p|[t|r]|t|a'|f|f]; simpl; try lia; try discriminate.
  - destruct (validate t); simpl; lia.
  - destruct (Nat.ltb_spec a max_attempts); simpl; lia.
Qed.

Lemma bounded_calls (s : machine_state) : ok s -> calls s <= max_attempts.
Proof.
  destruct s as [ph a c]. unfold within_budget. simpl.
  destruct ph; simpl; lia.
Qed.

Lemma run_within_budget (fuel : nat) (s : machine_state) :
  ok s -> ok (run_for fuel s).
Proof.
  revert s. induction fuel as [|fuel IH]; intros s Hs; simpl; [assumption|].
  destruct (terminal s); [assumption|].
  apply IH, step_within_budget, Hs.
Qed.

Lemma run_reaches_terminal (fuel : nat) (s : machine_state) :
  ok s -> left s <= fuel -> terminal (run_for fuel s) = true.
Proof.
  revert s. induction fuel as [|fuel IH]; intros s Hs Hfuel; simpl.
  - destruct s as [ph a c]. unfold steps_left, terminal in *. simpl in *.
    destruct ph; simpl in *; (reflexivity || lia).
  - destruct (terminal s) eqn:T; [assumption|].
    apply IH; [now apply step_within_budget|].
    pose proof (step_decreases s Hs T). lia.
Qed.

(** C8. A generation loop with a budget of at least one attempt ends: the
    run from INIT reaches VALID, with a validated artifact, or FAILED, within
    [4 * max_attempts + 1] steps; and at no point of the run has the
    inference provider been called more often than the budget allows. *)
Theorem generation_loop_bounded :
  let final := generate build_prompt provider validate max_attempts in
  ((exists a, at_phase final = VALID a)
   \/ (exists findings, at_phase final = FAILED findings))
  /\ calls final <= max_attempts
  /\ (forall fuel, calls (run_for fuel initial) <= max_attempts).
Proof.
  intros final.
  assert (T : terminal final = true).
  { apply run_reaches_terminal; [apply initial_within_budget|].
    unfold steps_left, enough. simpl. lia. }
  repeat split.
  - unfold terminal in T. destruct (at_phase final); try discriminate; eauto.
  - apply bounded_calls, run_within_budget, initial_within_budget.
  - intros fuel. apply bounded_calls, run_within_budget, initial_within_budget.
Qed.

End GenerationFacts.

Section GenerationSamples.

Import GenerationLoop Samples.

(** With the default budget of three attempts and a provider that times out
    every time, the loop stops after exactly three calls, failed. *)
Example three_timeouts :
  let final := generate prompt_of always_times_out accept_all
                        default_max_attempts in
  at_phase final = FAILED ["timeout"] /\ calls final = 3.
Proof. split; reflexivity. Qed.

Example first_answer_accepted :
  let final := generate prompt_of answers accept_all default_max_attempts in
  at_phase final = VALID "SELECT 1" /\ calls final = 1.
Proof. split; reflexivity. Qed.

(** C8 at the default budget, with the provider that always times out. *)
Lemma generation_loop_bounded_witness :
  1 <= default_max_attempts
  /\ calls (generate prompt_of always_times_out accept_all default_max_attempts)
     <= default_max_attempts.
Proof.
  assert (H : 1 <= default_max_attempts) by (unfold default_max_attempts; lia).
  split; [exact H|].
  exact (proj1 (proj2 (generation_loop_bounded
                         prompt_of always_times_out accept_all
                         default_max_attempts H))).
Defined.

End GenerationSamples.

(** ** The response cache *)

Section CacheFacts.

Import stdpp.base stdpp.gmap PipelineOrchestrator.

Context {JSN : JSNumber}.
Variable normalize : string -> string.
Variable pipeline : string -> nat -> work -> ChatResponse * work.

Local Abbreviation serve := (handle normalize pipeline).

Lemma set_cached_twice (r : ChatResponse) :
  set_cached (set_cached r) = set_cached r.
Proof. reflexivity. Qed.

(** After a request its key is in the cache, and what is stored differs
    from the response at most in the cache-hit flag. *)
Lemma served_is_stored (question : string) (version : nat) (s : state) :
  exists stored,
    cache (snd (serve question version s)) !! cache_key normalize question version
    = Some stored
    /\ set_cached stored = set_cached (fst (serve question version s)).
Proof.
  unfold handle.
  destruct (cache s !! cache_key normalize question version) as [stored|] eqn:E.
  - exists stored. simpl. split; [exact E | reflexivity].
  - destruct (pipeline question version (done_work s)) as [r w]. simpl.
    exists r. split; [apply lookup_insert_eq | reflexivity].
Qed.

(** C9. Asking the same question against the same schema version a second
    time returns the first response with the cache-hit flag set and every
    other field as it was, and leaves the orchestrator's state untouched:
    no provider call, no engine call and no rendering is done for it. *)
Theorem cache_idempotence (question : string) (version : nat) (s : state) :
  let first := serve question version s in
  let second := serve question version (snd first) in
  fst second = set_cached (fst first)
  /\ resp_cached (fst second) = Some true
  /\ snd second = snd first
  /\ done_work (snd second) = done_work (snd first).
Proof.
  intros first second.
  destruct (served_is_stored question version s) as [stored [Hk Hs]].
  fold first in Hk, Hs.
  assert (E : second = (set_cached stored, snd first)).
  { unfold second, handle. rewrite Hk. reflexivity. }
  rewrite E. simpl. rewrite Hs. auto.
Qed.

(** The key is the normalized question: a question of the same normal form
    is served from the cache as well. *)
Lemma same_normal_form_hits (question question' : string) (version : nat)
      (s : state) :
  normalize question' = normalize question ->
  serve question' version (snd (serve question version s))
  = (set_cached (fst (serve question version s)),
     snd (serve question version s)).
Proof.
  intros Hn.
  destruct (served_is_stored question version s) as [stored [Hk Hs]].
  unfold handle at 1. unfold cache_key in *. rewrite Hn, Hk, Hs. reflexivity.
Qed.

(** A miss runs the pipeline once, on the work done so far, and returns its
    response as it is. *)
Lemma miss_runs_pipeline (question : string) (version : nat) (s : state) :
  cache s !! cache_key normalize question version = None ->
  fst (serve question version s)
  = fst (pipeline question version (done_work s))
  /\ done_work (snd (serve question version s))
     = snd (pipeline question version (done_work s)).
Proof.
  intros Hmiss. unfold handle. rewrite Hmiss.
  destruct (pipeline question version (done_work s)); split; reflexivity.
Qed.

End CacheFacts.

(** ** Error results *)

Section ErrorResultFacts.

Import stdpp.base stdpp.gmap PipelineOrchestrator.

Context {JSN : JSNumber}.
Variable normalize : string -> string.
Variable query_generator : string -> nat -> stage string.
Variable query_executor : string -> stage QueryResult.
Variable chart_spec_generator : string -> QueryResult -> stage chart_spec.
Variable chart_renderer : chart_spec -> QueryResult -> stage (option string).
Variable answer_text : string -> QueryResult -> string.
Variable answer_mode : string -> QueryResult -> answered.
Variable effort : string -> nat -> work -> work.

Local Abbreviation result_of :=
  (assemble query_generator query_executor chart_spec_generator
            chart_renderer answer_text answer_mode).
Local Abbreviation pipeline :=
  (run_pipeline query_generator query_executor chart_spec_generator
                chart_renderer answer_text answer_mode effort).
Local Abbreviation bare r :=
  (resp_mode r = error ->
   resp_sql r = None /\ resp_data r = None /\ resp_data_preview r = None
   /\ resp_chart r = None /\ resp_chart_image_url r = None
   /\ resp_sources r = None).

Lemma mode_of_not_error (a : answered) : mode_of a <> error.
Proof. destruct a; discriminate. Qed.

(** Whichever stage surfaces the error, what the stages before it produced
    is not in the result. *)
Lemma assembled_error_is_bare (question : string) (version : nat) :
  bare (result_of question version).
Proof.
  unfold assemble.
  destruct (query_generator question version) as [query|m];
    [|intros _; repeat split].
  destruct (query_executor query) as [result|m]; [|intros _; repeat split].
  destruct (chart_spec_generator question result) as [chart|m];
    [|intros _; repeat split].
  destruct (chart_renderer chart result) as [image|m];
    [|intros _; repeat split].
  simpl. intros H. now apply mode_of_not_error in H.
Qed.

Lemma set_cached_bare (r : ChatResponse) : bare r -> bare (set_cached r).
Proof. intros H. exact H. Qed.

(** Nothing but bare error results ever enters the cache or leaves the
    orchestrator. *)
Lemma responses_bare (requests : list (string * nat)) (s : state) :
  (forall k stored, cache s !! k = Some stored -> bare stored) ->
  forall r, In r (responses normalize pipeline requests s) -> bare r.
Proof.
  revert s. induction requests as [|[question version] rest IH];
    intros s Hcache r Hr; simpl in Hr; [contradiction|].
  unfold handle in Hr.
  destruct (cache s !! cache_key normalize question version)
    as [stored|] eqn:E; simpl in Hr.
  - destruct Hr as [<-|Hr].
    + apply set_cached_bare. exact (Hcache _ _ E).
    + exact (IH s Hcache r Hr).
  - destruct Hr as [<-|Hr].
    + apply assembled_error_is_bare.
    + refine (IH _ _ r Hr). simpl. intros k stored Hk.
      apply lookup_insert_Some in Hk. destruct Hk as [[_ <-]|[_ Hk]].
      * apply assembled_error_is_bare.
      * exact (Hcache _ _ Hk).
Qed.

(** C6. Whatever a request ends with, a response of the orchestrator
    (computed or served from its cache, after any requests before it) or a
    failure of the request itself, a result whose mode is error carries the
    user-facing message and nothing else: no query text, no rows, no chart
    specification, no chart image and no sources, and no chart is
    displayed for it. *)
Theorem error_result_has_no_artifacts
        (requests : list (string * nat)) (id : string) (o : send_outcome) :
  match o with
  | Resolved response =>
      In response (responses normalize pipeline requests start)
  | Rejected _ => True
  end ->
  let m := handleSubmit_message id o in
  msg_mode m = Some (mode_tag error) ->
  msg_sql m = None
  /\ msg_data m = None
  /\ msg_data_preview m = None
  /\ msg_chart m = None
  /\ msg_chart_image_url m = None
  /\ msg_sources m = None
  /\ chart_blocks m = [].
Proof.
  destruct o as [response|err_message]; intros Ho m Hmode.
  - assert (Hbare : bare response).
    { apply (responses_bare requests start); [|exact Ho].
      intros k stored Hk. unfold start in Hk. simpl in Hk.
      rewrite lookup_empty in Hk. discriminate. }
    assert (He : resp_mode response = error).
    { unfold m in Hmode. simpl in Hmode.
      destruct (resp_mode response); solve [discriminate | reflexivity]. }
    destruct (Hbare He) as (H1 & H2 & H3 & H4 & H5 & H6).
    unfold m, chart_blocks, image_blocks, renderer_blocks. simpl.
    rewrite H1, H2, H3, H4, H5, H6. repeat split.
  - unfold m. simpl. repeat split.
Qed.

End ErrorResultFacts.

Section ErrorResultSamples.

Import stdpp.base stdpp.gmap.
Import IntegerData Samples PipelineOrchestrator.

(** C6 on a run whose query was generated and then timed out in the
    engine: the error result does not carry the query text. *)
Lemma error_result_has_no_artifacts_witness :
  In (error_result "The query took too long to run.")
     (responses as_typed
        (run_pipeline generator_passes executor_times_out spec_of_result
                      no_image row_count_text as_direct_query one_engine_call)
        [("Top 10 pickup zones", 1)] start)
  /\ msg_sql (handleSubmit_message "2"
                (Resolved (error_result "The query took too long to run.")))
     = None.
Proof.
  assert (H : In (error_result "The query took too long to run.")
                 (responses as_typed
                    (run_pipeline generator_passes executor_times_out
                                  spec_of_result no_image row_count_text
                                  as_direct_query one_engine_call)
                    [("Top 10 pickup zones", 1)] start)).
  { left. unfold handle, start. cbn [cache]. rewrite lookup_empty.
    reflexivity. }
  split; [exact H|].
  exact (proj1 (error_result_has_no_artifacts
                  as_typed generator_passes executor_times_out spec_of_result
                  no_image row_count_text as_direct_query one_engine_call
                  [("Top 10 pickup zones", 1)] "2"
                  (Resolved (error_result "The query took too long to run."))
                  H eq_refl)).
Defined.

End ErrorResultSamples.

(** ** CSV export *)

Section StringFacts.

(** [String.append] is sealed against [simpl] once stdpp is loaded; its two
    equations are used by name. *)
Lemma append_nil (b : string) : ("" ++ b = b)%string.
Proof. reflexivity. Qed.

Lemma append_cons (x : ascii) (a b : string) :
  (String x a ++ b = String x (a ++ b))%string.
Proof. reflexivity. Qed.

Lemma append_assoc (a b c : string) : ((a ++ b) ++ c = a ++ (b ++ c))%string.
Proof.
  induction a as [|x a IH]; [reflexivity|].
  rewrite !append_cons. f_equal. exact IH.
Qed.

Lemma append_empty_r (a : string) : (a ++ "" = a)%string.
Proof.
  induction a as [|x a IH]; [reflexivity|].
  rewrite append_cons. f_equal. exact IH.
Qed.

End StringFacts.

Section CsvFacts.

Import Csv.

Lemma push_string_first (t f : string) (fs : list string)
      (rs : list (list string)) :
  push_string t ((f :: fs) :: rs) = ((t ++ f)%string :: fs) :: rs.
Proof.
  induction t as [|c t IH]; [reflexivity|].
  rewrite append_cons. simpl. now rewrite IH.
Qed.

Lemma contains_char_cons (x c : ascii) (t : string) :
  Str.contains_char x (String c t)
  = if Ascii.eqb x c then true else Str.contains_char x t.
Proof. reflexivity. Qed.

Lemma needs_quotes_cons (c : ascii) (t : string) :
  DataTable.needs_quotes (String c t) = false ->
  Ascii.eqb c Str.dquote = false
  /\ Ascii.eqb c Str.comma = false
  /\ Ascii.eqb c Str.newline = false
  /\ DataTable.needs_quotes t = false.
Proof.
  unfold DataTable.needs_quotes. rewrite !contains_char_cons.
  rewrite (Ascii.eqb_sym c Str.dquote), (Ascii.eqb_sym c Str.comma),
          (Ascii.eqb_sym c Str.newline).
  destruct (Ascii.eqb Str.comma c), (Ascii.eqb Str.dquote c),
           (Ascii.eqb Str.newline c);
    rewrite ?orb_true_l, ?orb_true_r; intros H; try discriminate H.
  repeat split; try reflexivity. exact H.
Qed.

Lemma no_return_cons (c : ascii) (t : string) :
  DataTable.no_return (String c t) = true ->
  Ascii.eqb c Str.carriage_return = false /\ DataTable.no_return t = true.
Proof.
  unfold DataTable.no_return. rewrite contains_char_cons.
  rewrite (Ascii.eqb_sym c Str.carriage_return).
  destruct (Ascii.eqb Str.carriage_return c); [discriminate|].
  intros H. split; [reflexivity | exact H].
Qed.

(** A text without comma, double quote, line feed and carriage return reads
    back as itself. *)
Lemma plain_decodes (t : string) :
  DataTable.needs_quotes t = false -> DataTable.no_return t = true ->
  decodes t t.
Proof.
  intros H R rest _. induction t as [|c t IH]; [reflexivity|].
  apply needs_quotes_cons in H. destruct H as (Hq & Hc & Hn & Ht).
  apply no_return_cons in R. destruct R as (Hr & Rt).
  rewrite append_cons. cbn [parse_in push_string].
  rewrite Hq, Hc, Hn, Hr, (IH Ht Rt). reflexivity.
Qed.

Lemma quoted_body (t rest : string) :
  parse_in Quoted (Str.double_quotes t ++ String Str.dquote rest)
  = push_string t (parse_in QuoteSeen rest).
Proof.
  induction t as [|c t IH].
  - reflexivity.
  - simpl Str.double_quotes. destruct (Ascii.eqb c Str.dquote) eqn:E.
    + apply Ascii.eqb_eq in E. subst c.
      rewrite !append_cons. simpl. now rewrite IH.
    + rewrite append_cons. simpl. rewrite E, IH. reflexivity.
Qed.

Lemma after_quote (rest : string) :
  ends_field rest = true -> parse_in QuoteSeen rest = parse_in Bare rest.
Proof.
  destruct rest as [|c rest]; simpl; [reflexivity|].
  destruct (Ascii.eqb c Str.dquote); [discriminate | reflexivity].
Qed.

(** A text in double quotes, its double quotes doubled, reads back as the
    text. *)
Lemma quoted_decodes (t : string) :
  decodes (DataTable.quote_s ++ Str.double_quotes t ++ DataTable.quote_s) t.
Proof.
  intros rest Hrest. unfold DataTable.quote_s.
  rewrite !append_cons, !append_nil, append_assoc, append_cons, append_nil.
  simpl. now rewrite quoted_body, after_quote.
Qed.

Lemma empty_decodes : decodes "" "".
Proof. intros rest _. reflexivity. Qed.

(** One line: fields joined by commas are read back one by one. *)
Lemma line_decodes {X : Type} (enc txt : X -> string) (xs : list X)
      (rest : string) (records : list (list string)) :
  xs <> [] ->
  Forall (fun x => decodes (enc x) (txt x)) xs ->
  ends_field rest = true ->
  parse_in Bare rest = [EmptyString] :: records ->
  parse_in Bare (Str.join DataTable.comma_s (map enc xs) ++ rest)
  = map txt xs :: records.
Proof.
  intros Hne HF Hrest Hparse.
  induction xs as [|x xs IH]; [congruence|].
  apply Forall_cons_iff in HF. destruct HF as [Hx HF].
  destruct xs as [|y ys].
  - simpl. rewrite (Hx rest Hrest), Hparse, push_string_first, append_empty_r.
    reflexivity.
  - change (Str.join DataTable.comma_s (map enc (x :: y :: ys)))
      with (enc x ++ DataTable.comma_s
                  ++ Str.join DataTable.comma_s (map enc (y :: ys)))%string.
    rewrite !append_assoc. rewrite Hx by reflexivity.
    unfold DataTable.comma_s at 1. rewrite append_cons, append_nil.
    change (parse_in Bare (String Str.comma ?s)) with (new_field (parse_in Bare s)).
    rewrite IH by (congruence || assumption).
    simpl. rewrite push_string_first, append_empty_r. reflexivity.
Qed.

Lemma join_not_empty (sep l : string) (ls : list string) :
  l <> "" -> Str.join sep (l :: ls) <> "".
Proof.
  intros Hl. destruct l as [|c l]; [congruence|].
  destruct ls; simpl; [discriminate|].
  rewrite append_cons. discriminate.
Qed.

Lemma line_feed_starts_record (s : string) :
  s <> "" ->
  parse_in Bare (String Str.newline s) = new_record (parse_in Bare s).
Proof. destruct s; [congruence | reflexivity]. Qed.

(** Lines joined by line feeds, none of them empty, are read back record by
    record. *)
Lemma lines_decode (lines : list (string * list string)) :
  lines <> [] ->
  Forall (fun l => reads_as_line (fst l) (snd l)) lines ->
  Forall (fun l => fst l <> "") lines ->
  parse (Str.join DataTable.newline_s (map fst lines)) = map snd lines.
Proof.
  intros Hne HF HE. unfold parse.
  induction lines as [|[l fields] lines IH]; [congruence|].
  apply Forall_cons_iff in HF. destruct HF as [Hl HF].
  apply Forall_cons_iff in HE. destruct HE as [_ HE].
  destruct lines as [|l2 lines].
  - simpl. rewrite <- (append_empty_r l). now apply Hl.
  - change (Str.join DataTable.newline_s (map fst ((l, fields) :: l2 :: lines)))
      with (l ++ DataTable.newline_s
              ++ Str.join DataTable.newline_s (map fst (l2 :: lines)))%string.
    unfold DataTable.newline_s at 1. rewrite append_cons, append_nil.
    simpl map at 2. apply Hl; [reflexivity|].
    rewrite line_feed_starts_record.
    + rewrite IH by (congruence || assumption). reflexivity.
    + cbn [map]. apply join_not_empty.
      apply Forall_cons_iff in HE. now destruct HE.
Qed.

Section Cells.

Context {JSN : JSNumber}.

(** Every cell without a carriage return is written in a form that reads
    back as its text. *)
Lemma cell_decodes (v : value) :
  DataTable.no_return (DataTable.cell_value_text v) = true ->
  decodes (DataTable.csv_cell v) (DataTable.cell_value_text v).
Proof.
  unfold DataTable.csv_cell, DataTable.cell_value_text.
  destruct (is_nullish v); [intros _; apply empty_decodes|].
  intros R. destruct (DataTable.needs_quotes (ToString v)) eqn:E.
  - apply quoted_decodes.
  - now apply plain_decodes.
Qed.

(** The three rules for a cell. *)
Lemma csv_cell_rules (v : value) :
  (is_nullish v = true -> DataTable.csv_cell v = "")
  /\ (is_nullish v = false ->
      DataTable.needs_quotes (ToString v) = true ->
      DataTable.csv_cell v
      = (DataTable.quote_s ++ Str.double_quotes (ToString v)
                           ++ DataTable.quote_s)%string)
  /\ (is_nullish v = false ->
      DataTable.needs_quotes (ToString v) = false ->
      DataTable.csv_cell v = ToString v).
Proof.
  unfold DataTable.csv_cell.
  repeat split; intros H; rewrite H; try reflexivity; intros H2; now rewrite H2.
Qed.

(** The export reads back as the table it stands for, provided no line of
    the file is empty, no column name holds a comma, a double quote, a line
    feed or a carriage return, and no cell holds a carriage return. *)
Lemma csv_round_trip (first : row) (others : list row) :
  Forall (fun l => l <> "") (DataTable.csv_lines (first :: others)) ->
  Forall (fun col => DataTable.needs_quotes col = false
                     /\ DataTable.no_return col = true) (Obj.keys first) ->
  Forall (fun r =>
            Forall (fun col =>
                      DataTable.no_return
                        (DataTable.cell_value_text (prop r col)) = true)
                   (Obj.keys first))
         (first :: others) ->
  option_map parse (DataTable.csvContent (first :: others))
  = Some (DataTable.exported_table (first :: others)).
Proof.
  intros Hlines Hplain Hcells.
  unfold DataTable.csvContent, DataTable.exported_table.
  unfold DataTable.csv_lines in Hlines.
  set (cols := Obj.keys first) in *. set (dataset := first :: others) in *.
  assert (Hcols : cols <> []).
  { intros E. apply Forall_cons_iff in Hlines. destruct Hlines as [Hh _].
    rewrite E in Hh. now apply Hh. }
  cbv zeta. unfold option_map. f_equal.
  pose (lines :=
          (Str.join DataTable.comma_s cols, cols)
            :: map (fun r => (DataTable.csv_row cols r,
                              map (fun col => DataTable.cell_value_text (prop r col))
                                  cols)) dataset).
  assert (E1 : Str.join DataTable.comma_s cols :: map (DataTable.csv_row cols) dataset
               = map fst lines).
  { unfold lines. simpl. f_equal. now rewrite map_map. }
  assert (E2 : cols :: map (fun r => map (fun col => DataTable.cell_value_text
                                                       (prop r col)) cols) dataset
               = map snd lines).
  { unfold lines. simpl. f_equal. now rewrite map_map. }
  rewrite E1 in Hlines. rewrite E1, E2.
  apply lines_decode; [discriminate | |].
  - unfold lines. constructor.
    + simpl. intros rest records Hrest Hparse.
      rewrite <- (map_id cols) at 1. rewrite <- (map_id cols) at 2.
      apply line_decodes; try assumption.
      eapply Forall_impl; [|exact Hplain].
      intros col [Hcol Rcol]. now apply plain_decodes.
    + apply Forall_forall. intros l Hl.
      apply in_map_iff in Hl. destruct Hl as [r [<- Hr]]. simpl.
      intros rest records Hrest Hparse. unfold DataTable.csv_row.
      apply line_decodes; try assumption.
      rewrite Forall_forall in Hcells. specialize (Hcells r Hr).
      eapply Forall_impl; [|exact Hcells].
      intros col Hcol. now apply cell_decodes.
  - apply Forall_forall. intros l Hl. rewrite Forall_forall in Hlines.
    apply Hlines. now apply in_map.
Qed.

End Cells.

End CsvFacts.

Section CsvSamples.

Import IntegerData Samples.

(** C10 where it fails: the header line is written without quoting.  A
    column named by an expression with a comma in it comes back as two
    columns, so the header has three fields over rows of two. *)
Example header_not_quoted :
  DataTable.downloadCSV None averages
  = Some (Str.join DataTable.newline_s
            [ "company,round(avg(trip_miles), 2)"; "Uber,5"; "Lyft,4" ])
  /\ option_map Csv.parse (DataTable.downloadCSV None averages)
     = Some [ ["company"; "round(avg(trip_miles)"; " 2)"];
              ["Uber"; "5"]; ["Lyft"; "4"] ]
  /\ DataTable.exported_table averages
     = [ ["company"; "round(avg(trip_miles), 2)"];
         ["Uber"; "5"]; ["Lyft"; "4"] ].
Proof. repeat split. Qed.

(** A cell with a comma and double quotes is quoted, and read back whole. *)
Example cell_quoted :
  DataTable.csv_cell (VStr "6 in, the long one")
  = (DataTable.quote_s ++ "6 in, the long one" ++ DataTable.quote_s)%string
  /\ option_map Csv.parse
       (DataTable.downloadCSV None [[("note", VStr "6 in, the long one")]])
     = Some [["note"]; ["6 in, the long one"]].
Proof. split; reflexivity. Qed.

End CsvSamples.

(** ** The chat request and the chat's state *)

Section ChatApiFacts.

Context {JSN : JSNumber}.

Lemma or_default_not_empty (s fallback : string) :
  fallback <> "" -> or_default s fallback <> "".
Proof.
  intros H. unfold or_default. destruct s; simpl; [assumption | discriminate].
Qed.

Lemma or_default_keeps (s fallback : string) :
  s <> "" -> or_default s fallback = s.
Proof. intros H. destruct s; [congruence | reflexivity]. Qed.

(** X1. However the request fails, [sendMessage] throws an error with a
    text that is not empty; so the message [handleSubmit] shows is
    ["Error: "] followed by exactly that text, and the banner shows that
    text: the fallback texts of [handleSubmit] are never used. *)
Theorem failure_text_never_empty
        (api_url id : string) (o : ChatApi.post_outcome) (text : string) :
  ChatApi.sendMessage api_url o = Rejected text ->
  text <> ""
  /\ msg_content (handleSubmit_message id (Rejected text))
     = ("Error: " ++ text)%string
  /\ or_default text "Failed to send message" = text.
Proof.
  intros H.
  assert (Hne : text <> "").
  { destruct o as [data|detail err statusText| |message]; simpl in H;
      inversion H; subst; clear H.
    - apply or_default_not_empty. discriminate.
    - discriminate.
    - apply or_default_not_empty. discriminate. }
  split; [exact Hne|]. simpl. now rewrite !or_default_keeps.
Qed.

End ChatApiFacts.

Section ChatFacts.

Import ChatInterface.

Context {JSN : JSNumber}.
Variable trim : string -> string.
Variable isDevMode : bool.

Local Abbreviation chat_step := (step trim isDevMode).
Local Abbreviation chat_run := (run trim isDevMode).

Lemma initial_consistent (welcome_text : string) :
  consistent (initial welcome_text).
Proof. unfold consistent. simpl. repeat split; discriminate. Qed.

Lemma step_consistent (s : state) (e : event) :
  consistent s -> consistent (chat_step s e).
Proof.
  unfold consistent. intros [H T].
  destruct e as [text|token| |id| |id o]; simpl.
  - destruct (loading s); (split; [exact H | exact T]).
  - destruct (loading s); (split; [exact H | exact T]).
  - destruct (loading s); (split; [exact H | exact T]).
  - unfold submit, refused.
    destruct (loading s) eqn:L.
    + rewrite orb_true_r. simpl. rewrite L. split; [exact H | exact T].
    + destruct (Str.is_empty (trim (input s))
                || false || Str.is_empty (turnstileToken s) && negb isDevMode);
        simpl.
      * rewrite L. split; [exact H | exact T].
      * destruct H as (Hfl & _). rewrite Hfl. simpl.
        split; [|reflexivity].
        split; [reflexivity|].
        unfold last_role. simpl. rewrite rev_unit. reflexivity.
  - destruct (stageTimer s) eqn:Hst; simpl.
    + destruct (loading s) eqn:L.
      * split; [exact H | discriminate].
      * destruct H as (_ & _ & Hno & _). congruence.
    + rewrite Hst. destruct (loading s); (split; [exact H | exact T]).
  - unfold settle. destruct (in_flight s) as [|rq waiting] eqn:F.
    + rewrite F. destruct (loading s); (split; [exact H | exact T]).
    + simpl. destruct (loading s).
      * destruct H as [Hlen _]. simpl in Hlen.
        destruct waiting; [|discriminate].
        split; [|discriminate].
        repeat split.
        unfold last_role. simpl. rewrite rev_unit. destruct o; reflexivity.
      * destruct H as [Hnil _]. discriminate.
Qed.

Lemma run_consistent (events : list event) (s : state) :
  consistent s -> consistent (chat_run events s).
Proof.
  revert s. induction events as [|e events IH]; intros s H; simpl; [exact H|].
  apply IH, step_consistent, H.
Qed.

(** X2. Whatever the sequence of events, at most one request is in flight;
    the chat is loading exactly while one is; when it is not loading the
    stage is idle and no stage timer is pending; and the last message is the
    user's while loading and the assistant's otherwise. *)
Theorem chat_stays_consistent (welcome_text : string) (events : list event) :
  let s := chat_run events (initial welcome_text) in
  length (in_flight s) <= 1
  /\ (loading s = true <-> in_flight s <> [])
  /\ (loading s = false -> loadingStage s = idle /\ stageTimer s = false)
  /\ last_role s = Some (if loading s then user else assistant).
Proof.
  intros s.
  destruct (run_consistent events _ (initial_consistent welcome_text))
    as [H _].
  fold s in H. destruct (loading s).
  - destruct H as [Hlen Hrole].
    split; [lia|].
    split; [split; [intros _ Hnil; rewrite Hnil in Hlen; discriminate
                   | reflexivity]|].
    split; [discriminate | assumption].
  - destruct H as (Hnil & Hstage & Htimer & Hrole). rewrite Hnil.
    split; [simpl; lia|].
    split; [split; [discriminate | intros Hx; now elim Hx]|].
    split; [auto | assumption].
Qed.

(** X3. A submission that passes the guard sends one request, with a
    message and a token that are both not empty; the message sent is the
    trimmed input, which is also the text of the user message appended. *)
Theorem accepted_submit_sends (id : string) (s : state) :
  refused trim isDevMode s = false ->
  let s' := submit trim isDevMode id s in
  exists rq,
    in_flight s' = in_flight s ++ [rq]
    /\ req_message rq = trim (input s)
    /\ req_message rq <> ""
    /\ req_token rq <> ""
    /\ messages s' = messages s ++ [userMessage id (req_message rq)]
    /\ input s' = "".
Proof.
  intros Hok s'. unfold s', submit. rewrite Hok.
  eexists. simpl. split; [reflexivity|].
  unfold refused in Hok.
  apply orb_false_elim in Hok. destruct Hok as [Hok Htoken].
  apply orb_false_elim in Hok. destruct Hok as [Hinput _].
  repeat split.
  - destruct (trim (input s)); [discriminate | discriminate].
  - unfold token_sent, or_default.
    destruct (turnstileToken s) as [|c t]; simpl in *; [|discriminate].
    destruct isDevMode; [discriminate | discriminate].
Qed.

Lemma nothing_sent_without_token (events : list event) (s : state) :
  isDevMode = false ->
  turnstileToken s = "" ->
  in_flight s = [] ->
  no_new_token events ->
  in_flight (chat_run events s) = []
  /\ messages (chat_run events s) = messages s.
Proof.
  intros Hdev. revert s.
  induction events as [|e events IH]; intros s Htok Hfl Hev; simpl;
    [split; [assumption | reflexivity]|].
  apply Forall_cons_iff in Hev. destruct Hev as [He Hev].
  assert (Hstep : turnstileToken (chat_step s e) = ""
                  /\ in_flight (chat_step s e) = []
                  /\ messages (chat_step s e) = messages s).
  { destruct e as [text|token| |id| |id o]; simpl; auto.
    - elim He.
    - unfold submit, refused. rewrite Htok, Hdev. simpl.
      rewrite orb_true_r. auto.
    - destruct (stageTimer s); simpl; auto.
    - unfold settle. rewrite Hfl. auto. }
  destruct Hstep as (Htok' & Hfl' & Hmsg').
  destruct (IH _ Htok' Hfl' Hev) as [H1 H2].
  split; [exact H1 | congruence].
Qed.

(** X4. In production mode a token serves one request: once a request has
    settled, no event sends another request or adds a message until the
    challenge issues a new token. *)
Theorem token_serves_one_request
        (id : string) (o : send_outcome) (s : state) (rq : request)
        (events : list event) :
  isDevMode = false ->
  in_flight s = [rq] ->
  no_new_token events ->
  let settled := settle id o s in
  turnstileToken settled = ""
  /\ in_flight (chat_run events settled) = []
  /\ messages (chat_run events settled) = messages settled.
Proof.
  intros Hdev Hfl Hev settled.
  assert (Ht : turnstileToken settled = "")
    by (unfold settled, settle; rewrite Hfl; reflexivity).
  assert (Hf : in_flight settled = [])
    by (unfold settled, settle; rewrite Hfl; reflexivity).
  split; [exact Ht|].
  now apply nothing_sent_without_token.
Qed.

Lemma step_appends (s : state) (e : event) :
  exists added,
    messages (chat_step s e) = messages s ++ added /\ length added <= 1.
Proof.
  destruct e as [text|token| |id| |id o]; simpl;
    try (exists []; rewrite app_nil_r; split; [reflexivity | simpl; lia]).
  - unfold submit. destruct (refused trim isDevMode s).
    + exists []. rewrite app_nil_r. split; [reflexivity | simpl; lia].
    + eexists. split; [reflexivity | simpl; lia].
  - destruct (stageTimer s);
      exists []; rewrite app_nil_r; (split; [reflexivity | simpl; lia]).
  - unfold settle. destruct (in_flight s).
    + exists []. rewrite app_nil_r. split; [reflexivity | simpl; lia].
    + eexists. split; [reflexivity | simpl; lia].
Qed.

(** X5. The conversation only grows at its end: after any sequence of
    events the earlier messages are still there, in their order, followed
    by at most one new message per event. *)
Theorem history_only_grows (events : list event) (s : state) :
  exists added,
    messages (chat_run events s) = messages s ++ added
    /\ length added <= length events.
Proof.
  revert s. induction events as [|e events IH]; intros s; simpl.
  - exists []. rewrite app_nil_r. split; [reflexivity | simpl; lia].
  - destruct (IH (chat_step s e)) as [more [Hm Hl]].
    destruct (step_appends s e) as [one [Ho Hl1]].
    exists (one ++ more). rewrite Hm, Ho, app_assoc. split; [reflexivity|].
    rewrite length_app. lia.
Qed.

End ChatFacts.

Section ChatWitnesses.

Import IntegerData ChatInterface ChatSamples.

(** X3 on a typed question with a token: the request carries the trimmed
    question. *)
Lemma accepted_submit_sends_witness :
  exists rq,
    in_flight (submit trim_ascii false "1700000000000" ready)
    = in_flight ready ++ [rq]
    /\ req_message rq = "Top 10 pickup zones"
    /\ req_token rq <> "".
Proof.
  destruct (accepted_submit_sends trim_ascii false "1700000000000" ready
                                  eq_refl)
    as [rq (Hfl & Hmsg & _ & Htok & _)].
  exists rq. repeat split; assumption.
Defined.

(** X4 after the request of the sample has failed: typing and submitting
    again sends nothing. *)
Lemma token_serves_one_request_witness :
  in_flight
    (run trim_ascii false [Typed "Market share by company"; Submit "3"]
         (settle "2" (Rejected "Server error") waiting))
  = [].
Proof.
  refine (proj1 (proj2
    (token_serves_one_request
       trim_ascii false "2" (Rejected "Server error") waiting
       {| req_message := "Top 10 pickup zones"; req_token := "tok-1" |}
       [Typed "Market share by company"; Submit "3"]
       eq_refl eq_refl _))).
  repeat constructor.
Defined.

End ChatWitnesses.

Section ChatApiWitness.

Import IntegerData.

(** X1 when the backend cannot be reached. *)
Lemma failure_text_never_empty_witness :
  "Cannot connect to backend. Is the server running on http://localhost:8000?"
  <> ""
  /\ msg_content
       (handleSubmit_message "2"
          (Rejected "Cannot connect to backend. Is the server running on http://localhost:8000?"))
     = "Error: Cannot connect to backend. Is the server running on http://localhost:8000?".
Proof.
  destruct (failure_text_never_empty
              (ChatApi.API_URL None) "2" ChatApi.FailsWithoutResponse _ eq_refl)
    as (Hne & Hmsg & _).
  split; [exact Hne | exact Hmsg].
Defined.

End ChatApiWitness.

(** ** The table view *)

Section TableFacts.

Import DataTableView.

Context {JSN : JSNumber}.

Lemma slice_to_prefix {A : Type} (finish : Z) (l : list A) :
  exists hidden, l = slice_to finish l ++ hidden.
Proof.
  unfold slice_to. eexists. symmetry. apply firstn_skipn.
Qed.

Lemma slice_to_length {A : Type} (finish : Z) (l : list A) :
  length (slice_to finish l)
  = Z.to_nat (if (finish <? 0)%Z
              then Z.max (Z.of_nat (length l) + finish) 0
              else Z.min finish (Z.of_nat (length l))).
Proof.
  unfold slice_to. rewrite length_firstn.
  destruct (Z.ltb_spec finish 0); lia.
Qed.

(** X6. For a data set that is not empty the table shows a prefix of the
    rows, as many as the info line says, each with one cell per column of
    the first row; and the button that shows all rows is there exactly when
    some rows are not shown, whatever the row limit is. *)
Theorem table_shows_prefix
        (first : row) (others : list row) (fullData : option (list row))
        (maxRows : Z) (expanded : bool) :
  let data := first :: others in
  exists v,
    render data fullData maxRows expanded = Table v
    /\ (exists hidden,
           map (fun r => map (cell_text r) (thead v)) data
           = tbody v ++ hidden)
    /\ info_showing v = length (tbody v)
    /\ info_total v = length data
    /\ Forall (fun cells => length cells = length (thead v)) (tbody v)
    /\ (expand_button v = Some (length data)
        <-> length (tbody v) < length data)
    /\ (expand_button v = None <-> length (tbody v) = length data).
Proof.
  intros data. eexists. split; [reflexivity|].
  cbn [tbody thead info_showing info_total expand_button].
  set (shown := displayData data maxRows expanded).
  assert (Hpre : exists hidden, data = shown ++ hidden).
  { unfold shown, displayData. destruct expanded.
    - exists []. now rewrite app_nil_r.
    - apply slice_to_prefix. }
  assert (Hlen : (hasMore data maxRows && negb expanded = true
                  <-> length shown < length data)).
  { unfold shown, displayData, hasMore. destruct expanded.
    - rewrite andb_false_r. split; [discriminate | lia].
    - rewrite andb_true_r, slice_to_length, Z.ltb_lt.
      assert (0 < length data) by (simpl; lia).
      destruct (Z.ltb_spec maxRows 0); lia. }
  assert (Hle : length shown <= length data).
  { destruct Hpre as [hidden Hh]. apply (f_equal (@length _)) in Hh.
    rewrite length_app in Hh. lia. }
  rewrite length_map.
  split.
  { destruct Hpre as [hidden Hh].
    exists (map (fun r => map (cell_text r) (Obj.keys first)) hidden).
    rewrite <- map_app. now rewrite <- Hh. }
  split; [reflexivity|]. split; [reflexivity|].
  split.
  { apply Forall_forall. intros cells Hc.
    apply in_map_iff in Hc. destruct Hc as [r [<- _]].
    now rewrite length_map. }
  destruct (hasMore data maxRows && negb expanded) eqn:E.
  - assert (Hlt : length shown < length data) by now apply Hlen.
    split; split; intros H; try reflexivity; try assumption;
      try discriminate; lia.
  - assert (Hge : ~ length shown < length data).
    { intros Hlt. apply Hlen in Hlt. discriminate. }
    split; split; intros H; try reflexivity; try discriminate; lia.
Qed.

End TableFacts.

(** ** The sections of a message *)

Section SectionFacts.

Import stdpp.base stdpp.gmap MessageList.

Context {JSN : JSNumber}.

Lemma toggle_elem (messageId other : string) (prev : gset string) :
  other ∈ toggle messageId prev
  <-> (other = messageId /\ messageId ∉ prev)
      \/ (other <> messageId /\ other ∈ prev).
Proof.
  unfold toggle. case_decide as Hin.
  - rewrite elem_of_difference, elem_of_singleton.
    destruct (decide (other = messageId)) as [->|Hne]; tauto.
  - rewrite elem_of_union, elem_of_singleton.
    destruct (decide (other = messageId)) as [->|Hne]; tauto.
Qed.

(** X7. Toggling a section twice leaves the set of open sections as it
    was; toggling one message changes nothing in the sections of a message
    with another id; and for the message toggled, the SQL section is open
    afterwards exactly when it was closed before. *)
Theorem toggle_one_message
        (expandedSQL expandedData : gset string) (messageId : string)
        (m : Message) :
  toggle messageId (toggle messageId expandedSQL) = expandedSQL
  /\ (msg_id m <> messageId ->
      render_sections (toggle messageId expandedSQL) expandedData m
      = render_sections expandedSQL expandedData m
      /\ render_sections expandedSQL (toggle messageId expandedData) m
         = render_sections expandedSQL expandedData m)
  /\ (msg_id m = messageId ->
      forall text,
        ChartRenderer.truthy (msg_sql m) = Some text ->
        sql_section (render_sections (toggle messageId expandedSQL)
                                     expandedData m)
        = if bool_decide (messageId ∈ expandedSQL) then None else Some text).
Proof.
  split; [|split].
  - apply set_eq. intros x. rewrite !toggle_elem.
    destruct (decide (x = messageId)) as [->|Hne]; [|tauto].
    destruct (decide (messageId ∈ expandedSQL)); tauto.
  - intros Hne.
    assert (Hs : forall open : gset string,
               bool_decide (msg_id m ∈ toggle messageId open)
               = bool_decide (msg_id m ∈ open)).
    { intros open. apply bool_decide_ext. rewrite toggle_elem. tauto. }
    unfold render_sections. rewrite !Hs. split; reflexivity.
  - intros <- text Hsql. unfold render_sections. simpl. rewrite Hsql.
    assert (Hs : bool_decide (msg_id m ∈ toggle (msg_id m) expandedSQL)
                 = negb (bool_decide (msg_id m ∈ expandedSQL))).
    { destruct (decide (msg_id m ∈ expandedSQL)) as [Hin|Hout].
      - rewrite (bool_decide_eq_true_2 _ Hin). apply bool_decide_eq_false_2.
        rewrite toggle_elem. tauto.
      - rewrite (bool_decide_eq_false_2 _ Hout). apply bool_decide_eq_true_2.
        rewrite toggle_elem. tauto. }
    rewrite Hs. destruct (bool_decide (msg_id m ∈ expandedSQL)); reflexivity.
Qed.

Lemma slice_to_firstn {A : Type} (finish : Z) (l : list A) :
  (0 <= finish)%Z ->
  DataTableView.slice_to finish l = firstn (Z.to_nat finish) l.
Proof.
  intros H. unfold DataTableView.slice_to.
  destruct (Z.ltb_spec finish 0); [lia|].
  destruct (Z.le_gt_cases finish (Z.of_nat (length l))).
  - now rewrite Z.min_l.
  - rewrite Z.min_r by lia. rewrite Nat2Z.id.
    rewrite !firstn_all2; [reflexivity | lia | lia].
Qed.

(** X8. With preview rows and full data, the open data section shows the
    first ten preview rows, while its download writes the full data set,
    not the preview. *)
Theorem section_shows_preview_downloads_all
        (expandedSQL expandedData : gset string) (m : Message)
        (p : row) (ps full : list row) :
  msg_data_preview m = Some (p :: ps) ->
  msg_data m = Some full ->
  msg_id m ∈ expandedData ->
  section_csv m = DataTable.csvContent full
  /\ exists v,
       data_section (render_sections expandedSQL expandedData m)
       = Some (DataTableView.Table v)
       /\ DataTableView.tbody v
          = map (fun r => map (cell_text r) (Obj.keys p)) (firstn 10 (p :: ps))
       /\ DataTableView.info_total v = length (p :: ps)
       /\ DataTableView.csv_button v
          = match full with [] => None | _ => Some (length full) end.
Proof.
  intros Hp Hd Hopen. split.
  - unfold section_csv, table_data. rewrite Hp.
    unfold DataTable.downloadCSV, DataTable.datasetForCSV. now rewrite Hd.
  - unfold render_sections, has_rows, table_data. rewrite Hp, Hd. simpl.
    rewrite (bool_decide_eq_true_2 _ Hopen).
    eexists. split; [reflexivity|]. simpl.
    unfold DataTableView.displayData.
    rewrite slice_to_firstn by (unfold DataTableView.default_maxRows; lia).
    repeat split.
Qed.

(** X9. With a preview that is an empty array and full data that is not
    empty, the Data button is offered, but the open section reads "No data"
    and offers no download. *)
Theorem empty_preview_hides_data
        (expandedSQL expandedData : gset string) (m : Message)
        (d : row) (ds : list row) :
  msg_data_preview m = Some [] ->
  msg_data m = Some (d :: ds) ->
  msg_id m ∈ expandedData ->
  data_button (render_sections expandedSQL expandedData m) = Some true
  /\ data_section (render_sections expandedSQL expandedData m)
     = Some DataTableView.NoData
  /\ section_csv m = None.
Proof.
  intros Hp Hd Hopen.
  unfold render_sections, section_csv, has_rows, table_data.
  rewrite Hp, Hd. simpl. rewrite (bool_decide_eq_true_2 _ Hopen).
  repeat split.
Qed.

(** X10. Both versions of the component offer the Data button for the same
    messages. *)
Theorem has_rows_versions_agree (m : Message) :
  has_rows_earlier m = has_rows m.
Proof.
  unfold has_rows_earlier, has_rows.
  destruct (msg_data_preview m), (msg_data m); reflexivity.
Qed.

End SectionFacts.

(** ** More on the CSV export *)

Section CsvMoreFacts.

Context {JSN : JSNumber}.

(** the written form of a text *)
Lemma csv_cell_of_text (v : value) :
  DataTable.csv_cell v
  = if DataTable.needs_quotes (DataTable.cell_value_text v)
    then (DataTable.quote_s ++ Str.double_quotes (DataTable.cell_value_text v)
                            ++ DataTable.quote_s)%string
    else DataTable.cell_value_text v.
Proof.
  unfold DataTable.csv_cell, DataTable.cell_value_text.
  destruct (is_nullish v); reflexivity.
Qed.

Lemma quoted_form (t : string) :
  (DataTable.quote_s ++ Str.double_quotes t ++ DataTable.quote_s)%string
  = String Str.dquote (Str.double_quotes t ++ DataTable.quote_s).
Proof. unfold DataTable.quote_s at 1. now rewrite append_cons, append_nil. Qed.

Lemma quote_needs_quotes (t : string) :
  DataTable.needs_quotes (String Str.dquote t) = true.
Proof.
  unfold DataTable.needs_quotes. rewrite !contains_char_cons.
  rewrite Ascii.eqb_refl. now rewrite orb_true_r.
Qed.

(** inside the quotes a text is read back whole *)
Lemma quoted_reads_whole (t : string) :
  Csv.parse_in Csv.Quoted (Str.double_quotes t ++ DataTable.quote_s) = [[t]].
Proof.
  unfold DataTable.quote_s. rewrite quoted_body. simpl.
  now rewrite push_string_first, append_empty_r.
Qed.

(** X11. The written form of a cell determines its text, and the text
    determines the written form: two cells are written alike exactly when
    they stand for the same text, so quoting never merges two texts. *)
Theorem csv_cell_lossless (v w : value) :
  DataTable.csv_cell v = DataTable.csv_cell w
  <-> DataTable.cell_value_text v = DataTable.cell_value_text w.
Proof.
  split.
  - rewrite !csv_cell_of_text.
    destruct (DataTable.needs_quotes (DataTable.cell_value_text v)) eqn:Ev,
             (DataTable.needs_quotes (DataTable.cell_value_text w)) eqn:Ew;
      intros H.
    + rewrite !quoted_form in H. injection H as H.
      apply (f_equal (Csv.parse_in Csv.Quoted)) in H.
      rewrite !quoted_reads_whole in H. congruence.
    + rewrite <- H, quoted_form, quote_needs_quotes in Ew. discriminate.
    + rewrite H, quoted_form, quote_needs_quotes in Ev. discriminate.
    + exact H.
  - intros H. rewrite !csv_cell_of_text, H. reflexivity.
Qed.

(** X12. The export reads the columns of the first row only: a property
    that a later row has under another name changes nothing in the file. *)
Theorem later_columns_not_exported
        (first r : row) (before after : list row) (k : string) (v : value) :
  ~ In k (Obj.keys first) ->
  DataTable.csvContent (first :: before ++ Obj.set r k v :: after)
  = DataTable.csvContent (first :: before ++ r :: after).
Proof.
  intros Hk. unfold DataTable.csvContent. cbv zeta.
  assert (E : DataTable.csv_row (Obj.keys first) (Obj.set r k v)
              = DataTable.csv_row (Obj.keys first) r).
  { unfold DataTable.csv_row. f_equal.
    apply map_ext_in. intros col Hcol. f_equal.
    unfold prop. rewrite get_set_other; [reflexivity|].
    intros ->. contradiction. }
  cbn [map]. rewrite !map_app. cbn [map]. now rewrite E.
Qed.

End CsvMoreFacts.

(** ** More on the chart *)

Section ChartMoreFacts.

Context {JSN : JSNumber}.

Import ChartRenderer.

Lemma unique_from_NoDup (seen l : list string) :
  NoDup (Arr.unique_from seen l).
Proof.
  revert seen. induction l as [|s l IH]; intros seen; simpl; [constructor|].
  destruct (existsb (String.eqb s) seen); [apply IH|].
  constructor; [|apply IH].
  intros Hin. apply unique_from_In in Hin. destruct Hin as [_ Hs].
  simpl in Hs. rewrite String.eqb_refl in Hs. discriminate.
Qed.

Lemma unique_from_length (seen l : list string) :
  length (Arr.unique_from seen l) <= length l.
Proof.
  revert seen. induction l as [|s l IH]; intros seen; simpl; [lia|].
  destruct (existsb (String.eqb s) seen); simpl.
  - specialize (IH seen). lia.
  - specialize (IH (s :: seen)). lia.
Qed.

Lemma series_marks_keys (idx : nat) (sv : list string) :
  map fst (series_marks idx sv) = sv.
Proof.
  revert idx. induction sv as [|s sv IH]; intros idx; simpl;
    [reflexivity | now rewrite IH].
Qed.

Lemma series_marks_colour (idx k : nat) (sv : list string) :
  k < length sv ->
  nth k (map snd (series_marks idx sv)) ""
  = nth ((idx + k) mod length colors) colors "".
Proof.
  revert idx k. induction sv as [|s sv IH]; intros idx k Hk; simpl in Hk;
    [lia|].
  destruct k as [|k].
  - cbn [series_marks map snd nth]. now rewrite Nat.add_0_r.
  - cbn [series_marks map nth]. rewrite IH by lia.
    now replace (S idx + k) with (idx + S k) by lia.
Qed.

(** X13. With a series column there is one mark per distinct series value,
    in the order of first appearance and under distinct keys, and the mark
    at position [k] has the colour at position [k mod 10] of the palette;
    without one there is the single mark of the y column. *)
Theorem marks_distinct_and_coloured (config : chart_spec) (data : list row) :
  NoDup (map fst (marks config data))
  /\ map fst (marks config data)
     = match truthy (chart_series config) with
       | Some series => seriesValues series data
       | None => [y_key config]
       end
  /\ (forall k,
         k < length (marks config data) ->
         truthy (chart_series config) <> None ->
         nth k (map snd (marks config data)) "" = nth (k mod 10) colors "").
Proof.
  unfold marks. destruct (truthy (chart_series config)) as [series|].
  - rewrite series_marks_keys. repeat split.
    + apply unique_from_NoDup.
    + intros k Hk _.
      assert (Hlen : length (series_marks 0 (seriesValues series data))
                     = length (seriesValues series data)).
      { rewrite <- (series_marks_keys 0 (seriesValues series data)) at 2.
        now rewrite length_map. }
      rewrite Hlen in Hk. rewrite series_marks_colour by exact Hk.
      reflexivity.
  - simpl. repeat split.
    + repeat constructor. simpl. tauto.
    + intros k _ H. now elim H.
Qed.

Lemma group_entry (config : chart_spec) (series : string) (data : list row)
      (o : row) (k : string) :
  truthy (chart_series config) = Some series ->
  own_names config data = true ->
  In o (map snd (pivot config series data)) ->
  existsb (String.eqb k) (seriesValues series data) = true
  \/ k = x_key config ->
  exists v, Obj.get o k = Some v.
Proof.
  intros Hs Hown Ho Hk.
  destruct (own_names_plainly config series data Hs Hown) as (Hp & Hx & Hsv).
  apply in_map_iff in Ho. destruct Ho as [[x o'] [Eo Hin]].
  simpl in Eo. subst o'.
  assert (Hnd : NoDup (map fst (pivot config series data))).
  { unfold pivot, groups. rewrite keys_map_values. apply grouped_NoDup. }
  pose proof (In_get _ x o Hnd Hin) as Hget.
  pose proof (cell_grouped config series (seriesValues series data) data x k
                           Hsv Hp) as Hcell.
  fold (groups config series data) in Hcell.
  fold (pivot config series data) in Hcell.
  unfold cell in Hcell. rewrite Hget in Hcell. rewrite Hcell.
  destruct (last_row config series x k data); [eauto|].
  destruct (x_observed config x data) eqn:Ex.
  - rewrite get_fresh_group by assumption.
    destruct (existsb (String.eqb k) (seriesValues series data)); [eauto|].
    destruct Hk as [Hk | ->]; [discriminate|].
    rewrite String.eqb_refl. eauto.
  - apply (group_exists config series (seriesValues series data) data x Hx) in Ex.
    fold (groups config series data) in Ex.
    unfold pivot in Hget. rewrite get_map_values, Ex in Hget. discriminate.
Qed.

(** X14. As long as no name in use is a name of [Object.prototype], every
    row handed to the chart has an entry under the key of the x axis and
    under the key of every mark: the chart never reads a missing entry,
    with or without a series column. *)
Theorem chart_rows_have_all_keys (config : chart_spec) (data : list row) :
  own_names config data = true ->
  Forall (fun o =>
            (exists v, Obj.get o (x_key config) = Some v)
            /\ Forall (fun mark => exists v, Obj.get o (fst mark) = Some v)
                      (marks config data))
         (chartData config data).
Proof.
  intros Hown. apply Forall_forall. intros o Ho.
  unfold chartData in Ho. apply (Permutation_in _ (sort_perm _ _)) in Ho.
  unfold unsorted, marks in *.
  destruct (truthy (chart_series config)) as [series|] eqn:Hs.
  - apply (Permutation_in _ (values_perm _)) in Ho.
    split; [apply (group_entry config series data); auto|].
    apply Forall_forall. intros [k c] Hk.
    apply (group_entry config series data); try assumption. left.
    apply existsb_eqb_In. rewrite <- (series_marks_keys 0).
    change k with (fst (k, c)). now apply in_map.
  - unfold xy_rows in Ho. apply in_map_iff in Ho. destruct Ho as [r [<- _]].
    split.
    + rewrite get_set.
      destruct (String.eqb (x_key config) (y_key config)); [eauto|].
      simpl. rewrite String.eqb_refl. eauto.
    + repeat constructor. cbn [fst]. rewrite get_set_same. eauto.
Qed.

(** X15. The chart never has more rows than the data.  Without a series
    column it has one row per input row, equal x values included; with one,
    and as long as no name in use is a name of [Object.prototype], it has
    one row per distinct x value. *)
Theorem chart_row_count (config : chart_spec) (data : list row) :
  own_names config data = true ->
  length (chartData config data) <= length data
  /\ length (chartData config data)
     = match truthy (chart_series config) with
       | Some series =>
           length (Arr.unique (map (xValue_of config) data))
       | None => length data
       end.
Proof.
  intros Hown.
  assert (E : length (chartData config data)
              = match truthy (chart_series config) with
                | Some series =>
                    length (Arr.unique (map (xValue_of config) data))
                | None => length data
                end).
  { unfold chartData. rewrite (Permutation_length (sort_perm _ _)).
    unfold unsorted. destruct (truthy (chart_series config)) as [series|] eqn:Hs.
    - destruct (own_names_plainly config series data Hs Hown) as (_ & Hx & _).
      rewrite (Permutation_length (values_perm _)), length_map.
      rewrite <- (length_map fst). unfold pivot, groups.
      rewrite keys_map_values. now rewrite grouped_keys_first_seen.
    - unfold xy_rows. now rewrite length_map. }
  split; [|exact E]. rewrite E.
  destruct (truthy (chart_series config)); [|lia].
  unfold Arr.unique.
  pose proof (unique_from_length [] (map (xValue_of config) data)) as H.
  now rewrite length_map in H.
Qed.

End ChartMoreFacts.

(** ** More on the stand-alone preview *)

Section PreviewMoreFacts.

Context {JSN : JSNumber}.

(** X16. Once its request has settled, the stand-alone preview is on the
    page exactly when the status was ok, the body reports no error and the
    body has at least one row; it then starts collapsed.  In every other
    case nothing is shown, the loading toggle included. *)
Theorem DataPreview_shown_iff (o : fetch_outcome) :
  DataPreview.render (DataPreview.fetchPreview o DataPreview.initial)
  = match o with
    | FetchStatus true body =>
        match ChartRenderer.truthy (preview_error body), preview_rows body with
        | None, _ :: _ => PreviewToggle false None
        | _, _ => NoPreview
        end
    | _ => NoPreview
    end.
Proof.
  destruct o as [m|[|] body]; unfold DataPreview.render; simpl.
  - destruct m; reflexivity.
  - destruct (ChartRenderer.truthy (preview_error body)); [reflexivity|].
    destruct (preview_rows body); reflexivity.
  - reflexivity.
Qed.

End PreviewMoreFacts.

(** ** The further properties on sample inputs *)

Section MoreWitnesses.

Import stdpp.base stdpp.gmap.
Import IntegerData Samples ChatSamples.

(** X8 on the charted answer of the samples. *)
Lemma section_shows_preview_downloads_all_witness :
  MessageList.section_csv charted = DataTable.csvContent hours.
Proof.
  refine (proj1 (section_shows_preview_downloads_all
                   ∅ {[ "2" ]} charted _ _ hours eq_refl eq_refl _)).
  now apply elem_of_singleton.
Defined.

(** X9 on the answer whose preview is an empty array. *)
Lemma empty_preview_hides_data_witness :
  MessageList.data_section
    (MessageList.render_sections ∅ {[ "4" ]} preview_emptied)
  = Some DataTableView.NoData.
Proof.
  refine (proj1 (proj2 (empty_preview_hides_data
                          ∅ {[ "4" ]} preview_emptied _ _
                          eq_refl eq_refl _))).
  now apply elem_of_singleton.
Defined.

End MoreWitnesses.

Section RoundTripSample.

Import IntegerData Samples ChatSamples ChartRenderer.

(** X12: the column [trips] of the second row is not in the file. *)
Lemma later_columns_not_exported_witness :
  DataTable.csvContent (narrow :: [] ++ wider :: [])
  = DataTable.csvContent (narrow :: [] ++ [("zone", VStr "LGA")] :: []).
Proof.
  apply (later_columns_not_exported (JSN := IntegerData.numbers)
           narrow [("zone", VStr "LGA")] [] [] "trips"
           (VNum (JSN := IntegerData.numbers) 9%Z)).
  intros [H|[]]. discriminate H.
Defined.

(** X17. The export reads back as the table it stands for: the header,
    then every row with its cells as text, null and undefined as the empty
    text.  This holds whenever no line of the file is empty, no column name
    holds a comma, a double quote, a line feed or a carriage return, and no
    cell holds a carriage return. *)
Theorem export_reads_back
        {JSN : JSNumber} (first : row) (others : list row) :
  Forall (fun l => l <> "") (DataTable.csv_lines (first :: others)) ->
  Forall (fun col => DataTable.needs_quotes col = false
                     /\ DataTable.no_return col = true) (Obj.keys first) ->
  Forall (fun r =>
            Forall (fun col =>
                      DataTable.no_return
                        (DataTable.cell_value_text (prop r col)) = true)
                   (Obj.keys first))
         (first :: others) ->
  option_map Csv.parse (DataTable.csvContent (first :: others))
  = Some (DataTable.exported_table (first :: others))
  /\ length (DataTable.exported_table (first :: others))
     = S (S (length others)).
Proof.
  intros Hlines Hplain Hcells. split; [now apply csv_round_trip|].
  simpl. now rewrite length_map.
Qed.

Lemma export_reads_back_witness :
  option_map Csv.parse (DataTable.csvContent hours)
  = Some [["h"; "n"]; ["3"; "10"]; ["1"; "20"]].
Proof.
  unfold hours.
  refine (proj1 (export_reads_back (JSN := IntegerData.numbers) _ _ _ _ _)).
  - repeat constructor; discriminate.
  - repeat constructor.
  - repeat constructor.
Defined.

(** The conditions of X17 are needed.  A last row whose only cell is empty
    leaves the file ending in a line feed, which a reader takes as the end
    of the row before; and a cell with a carriage return is written without
    quotes, so a reader ends the record there. *)
Example empty_last_line_is_lost :
  DataTable.csvContent [[("a", VNum 1%Z)]; [("a", VNull)]]
  = Some (Str.join DataTable.newline_s ["a"; "1"; ""])
  /\ option_map Csv.parse
       (DataTable.csvContent [[("a", VNum 1%Z)]; [("a", VNull)]])
     = Some [["a"]; ["1"]]
  /\ DataTable.exported_table [[("a", VNum 1%Z)]; [("a", VNull)]]
     = [["a"]; ["1"]; [""]].
Proof. repeat split. Qed.

Example carriage_return_not_quoted :
  option_map Csv.parse
    (DataTable.csvContent
       [[("a", VStr (String "l" (String Str.carriage_return "r")))]])
  = Some [["a"]; ["l"]; ["r"]].
Proof. reflexivity. Qed.

(** X18. With a series column, as long as no name in use is a name of
    [Object.prototype] and no x value is written like an array index, the
    groups reach the sort in the order in which their x values first appear
    in the data; when no x value is coercible to a number either, the chart
    keeps that order. *)
Theorem groups_in_first_seen_order
        {JSN : JSNumber} (config : chart_spec) (series : string)
        (data : list row) :
  truthy (chart_series config) = Some series ->
  own_names config data = true ->
  Forall (fun r => Obj.array_index (xValue_of config r) = None) data ->
  unsorted config data = map snd (pivot config series data)
  /\ map fst (pivot config series data)
     = Arr.unique (map (xValue_of config) data)
  /\ ((forall r, In r (unsorted config data) ->
                 ToNumber (prop r (x_key config)) = None) ->
      chartData config data = map snd (pivot config series data)).
Proof.
  intros Hs Hown Hx.
  destruct (own_names_plainly config series data Hs Hown) as (_ & Hin & _).
  pose proof (unsorted_first_seen config series data Hs Hin Hx) as E.
  split; [exact E|]. split.
  { unfold pivot, groups. rewrite keys_map_values.
    now apply grouped_keys_first_seen. }
  intros Hnan. rewrite <- E. unfold chartData. apply sort_flat.
  intros a b Ha Hb. unfold x_le, number_or_zero.
  rewrite (Hnan a Ha), (Hnan b Hb).
  destruct (num_leb_total num_zero num_zero); assumption.
Qed.

Lemma groups_in_first_seen_order_witness :
  map fst (pivot by_series "s" weekdays) = ["Tue"; "Mon"]
  /\ unsorted by_series weekdays = map snd (pivot by_series "s" weekdays).
Proof.
  destruct (groups_in_first_seen_order by_series "s" weekdays eq_refl eq_refl)
    as (E & K & _).
  - repeat constructor.
  - split; [exact K | exact E].
Defined.

(** X14 and X15 on the rows with a gap. *)
Lemma chart_rows_have_all_keys_witness :
  Forall (fun o =>
            (exists v, Obj.get o "x" = Some v)
            /\ Forall (fun mark => exists v, Obj.get o (fst mark) = Some v)
                      (marks by_series gaps))
         (chartData by_series gaps).
Proof. exact (chart_rows_have_all_keys by_series gaps eq_refl). Defined.

Lemma chart_row_count_witness :
  length (chartData by_series gaps) = 2.
Proof. exact (proj2 (chart_row_count by_series gaps eq_refl)). Defined.

End RoundTripSample.

(** ** The download button and the chart's data *)

Section DownloadFacts.

Context {JSN : JSNumber}.

(** X19. The download button of the table is offered exactly when a
    download writes a file, and then shows the number of rows written; full
    data that is an empty array takes the button away although the table
    has rows. *)
Theorem download_button_matches_download
        (first : row) (others : list row) (fullData : option (list row))
        (maxRows : Z) (expanded : bool) :
  let data := first :: others in
  exists v,
    DataTableView.render data fullData maxRows expanded = DataTableView.Table v
    /\ (DataTableView.csv_button v = None
        <-> DataTable.downloadCSV fullData data = None)
    /\ (forall n, DataTableView.csv_button v = Some n ->
                  n = length (DataTable.datasetForCSV fullData data))
    /\ (fullData = Some [] -> DataTableView.csv_button v = None).
Proof.
  intros data. eexists. split; [reflexivity|].
  cbn [DataTableView.csv_button]. unfold DataTable.downloadCSV.
  destruct (DataTable.datasetForCSV fullData data) as [|r rs] eqn:E.
  - repeat split; try reflexivity. discriminate.
  - repeat split; try discriminate.
    + intros n Hn. now inversion Hn.
    + intros ->. simpl in E. discriminate.
Qed.

(** X20. The client-side chart is drawn from the full data only: a message
    with a chart specification and no image whose full data is missing or
    empty shows "No data to display", whatever its preview rows are. *)
Theorem chart_needs_full_data (m : Message) (c : chart_spec) :
  msg_chart m = Some c ->
  ChartRenderer.truthy (msg_chart_image_url m) = None ->
  msg_data m = None \/ msg_data m = Some [] ->
  chart_blocks m = [RendererBlock ChartRenderer.NoDataToDisplay].
Proof.
  intros Hc Hu Hd. unfold chart_blocks, image_blocks, renderer_blocks.
  rewrite Hc, Hu. destruct Hd as [-> | ->]; reflexivity.
Qed.

End DownloadFacts.

Section DownloadSamples.

Import IntegerData Samples ChatSamples.

(** X20 on the answer with preview rows and no full data. *)
Lemma chart_needs_full_data_witness :
  chart_blocks preview_only = [RendererBlock ChartRenderer.NoDataToDisplay].
Proof.
  apply (chart_needs_full_data preview_only plain);
    [reflexivity | reflexivity | left; reflexivity].
Defined.

End DownloadSamples.
